(** * Session-security core of ecom-be: a shallow embedding in Rocq

    The auth use cases of [app/application/use_cases/auth], the refresh-token
    and user repositories of [app/infrastructure/repositories/sqlalchemy],
    the SQLAlchemy unit of work, the per-request principal check of
    [app/presentation/api/deps/auth_deps.py], the RBAC permission check and
    the in-memory cache.

    Modelling conventions:
    - UUIDs are [nat]; datetimes are [Z] seconds; Python [int] is [Z];
      Python [str] is [string] (ASCII text).  The email validator only
      accepts ASCII; passwords are not restricted, so the password policy
      below follows Python's [str.isdigit], [str.isalpha] and [len] only on
      ASCII passwords.
    - The database is a record of tables (lists of rows).  A lookup through
      a uniquely indexed column ([id], [token_hash], [email]) is [find]; the
      unique constraints are checked when a row is inserted ([flush]), so at
      most one row ever matches and [scalar_one_or_none] is [find].
    - The unit of work keeps the committed database and the session's
      pending one; [commit] publishes pending, [rollback] discards it.
    - Randomness ([uuid.uuid4], [secrets], [generate_token]) and the clock
      are inputs of the use case; hashers, the password verifier, the role
      lookup and the JWT service are section variables. *)

From Stdlib Require Import ZArith Lia Ascii String.
From stdpp Require Import base list strings sorting gmap.

Open Scope Z_scope.

(** ** Domain entities *)

(** [app/domain/entities/user.py] *)
Record User := mkUser {
  u_id : nat;
  u_email : string;
  u_password_hash : string;
  u_is_active : bool;
  u_is_verified : bool;
  u_token_version : Z;
  u_created_at : Z;
  u_updated_at : Z
}.

(** [User.with_new_password] *)
Definition with_new_password (u : User) (password_hash : string) (updated_at : Z) : User :=
  mkUser (u_id u) (u_email u) password_hash (u_is_active u) (u_is_verified u)
    (u_token_version u + 1) (u_created_at u) updated_at.

(** [User.with_token_version_incremented] *)
Definition with_token_version_incremented (u : User) (updated_at : Z) : User :=
  mkUser (u_id u) (u_email u) (u_password_hash u) (u_is_active u) (u_is_verified u)
    (u_token_version u + 1) (u_created_at u) updated_at.

(** [app/domain/entities/refresh_token.py] *)
Record RefreshToken := mkRefreshToken {
  rt_id : nat;
  rt_user_id : nat;
  rt_token_hash : string;
  rt_family_id : nat;
  rt_issued_at : Z;
  rt_expires_at : Z;
  rt_revoked_at : option Z;
  rt_replaced_by_token_id : option nat;
  rt_ip : option string;
  rt_user_agent : option string
}.

(** [RefreshToken.is_expired]: [current_time >= self.expires_at] *)
Definition is_expired (t : RefreshToken) (current_time : Z) : bool :=
  rt_expires_at t <=? current_time.

(** [RefreshToken.is_revoked] *)
Definition is_revoked (t : RefreshToken) : bool :=
  match rt_revoked_at t with Some _ => true | None => false end.

(** [RefreshToken.is_replaced] *)
Definition is_replaced (t : RefreshToken) : bool :=
  match rt_replaced_by_token_id t with Some _ => true | None => false end.

(** [RefreshToken.mark_as_replaced] *)
Definition mark_as_replaced (t : RefreshToken) (replaced_by_id : nat) : RefreshToken :=
  mkRefreshToken (rt_id t) (rt_user_id t) (rt_token_hash t) (rt_family_id t)
    (rt_issued_at t) (rt_expires_at t) (rt_revoked_at t) (Some replaced_by_id)
    (rt_ip t) (rt_user_agent t).

(** Row update of a refresh token: [revoked_at = revoked_at] *)
Definition set_revoked_at (t : RefreshToken) (revoked_at : Z) : RefreshToken :=
  mkRefreshToken (rt_id t) (rt_user_id t) (rt_token_hash t) (rt_family_id t)
    (rt_issued_at t) (rt_expires_at t) (Some revoked_at) (rt_replaced_by_token_id t)
    (rt_ip t) (rt_user_agent t).

(** [RefreshTokenMapper.update_model]: copies token_hash, revoked_at and
    replaced_by_token_id onto the stored row. *)
Definition rt_update_model (model entity : RefreshToken) : RefreshToken :=
  mkRefreshToken (rt_id model) (rt_user_id model) (rt_token_hash entity) (rt_family_id model)
    (rt_issued_at model) (rt_expires_at model) (rt_revoked_at entity)
    (rt_replaced_by_token_id entity) (rt_ip model) (rt_user_agent model).

(** [UserMapper.update_model]: copies everything except id and created_at. *)
Definition user_update_model (model entity : User) : User :=
  mkUser (u_id model) (u_email entity) (u_password_hash entity) (u_is_active entity)
    (u_is_verified entity) (u_token_version entity) (u_created_at model) (u_updated_at entity).

(** ** Errors ([app/domain/errors], SQLAlchemy and Python errors) *)
Inductive Error :=
  | RefreshTokenNotFoundError
  | RefreshTokenExpiredError
  | RefreshTokenRevokedError
  | RefreshTokenReuseDetectedError
  | UserNotFoundError
  | UserNotActiveError
  | InvalidCredentialsError (msg : string)
  | UserAlreadyExistsError (msg : string)
  | ValueError (msg : string)
  | InsufficientPermissionsError
  | IntegrityError
  | NoResultFound
  | HTTPUnauthorized (detail : string).

Inductive outcome (A : Type) :=
  | Ok (a : A)
  | Err (e : Error).
Arguments Ok {A} a.
Arguments Err {A} e.

(** ** Database and unit of work *)
Record Db := mkDb {
  users : list User;
  refresh_tokens : list RefreshToken
}.

(** An audit record: event type and user id ([details] are not modelled). *)
Record AuditEvent := mkAuditEvent {
  ev_type : string;
  ev_user_id : option nat
}.

Record Session := mkSession {
  committed : Db;
  pending : Db;
  audit : list AuditEvent
}.

(** A fresh request-scoped session over the database [d]. *)
Definition fresh_session (d : Db) : Session := mkSession d d [].

(** The use-case monad: state passing over the session, errors keep the
    state reached when they were raised. *)
Definition M (A : Type) : Type := Session -> Session * outcome A.

Global Instance M_ret : MRet M := fun A a s => (s, Ok a).
Global Instance M_bind : MBind M := fun A B f m s =>
  match m s with
  | (s', Ok a) => f a s'
  | (s', Err e) => (s', Err e)
  end.

Definition raise {A} (e : Error) : M A := fun s => (s, Err e).
Definition get_pending : M Db := fun s => (s, Ok (pending s)).
Definition put_pending (d : Db) : M unit :=
  fun s => (mkSession (committed s) d (audit s), Ok tt).

(** [UnitOfWork.commit] / [rollback] *)
Definition commit : M unit :=
  fun s => (mkSession (pending s) (pending s) (audit s), Ok tt).
Definition rollback : M unit :=
  fun s => (mkSession (committed s) (committed s) (audit s), Ok tt).

(** [async with self.uow:]: [__aexit__] rolls back on an exception and
    commits on normal exit; the exception propagates. *)
Definition with_uow {A} (body : M A) : M A := fun s =>
  match body s with
  | (s', Ok a) => (fst (commit s'), Ok a)
  | (s', Err e) => (fst (rollback s'), Err e)
  end.

(** [AuditLogPort.log_event] (structured logger, appends one record) *)
Definition log_event (event_type : string) (user_id : option nat) : M unit :=
  fun s => (mkSession (committed s) (pending s) (audit s ++ [mkAuditEvent event_type user_id]), Ok tt).

(** ** Repositories on the pending database *)
Module RefreshTokenRepo.

(** [get_by_token_hash] *)
Definition get_by_token_hash (token_hash : string) : M (option RefreshToken) :=
  d ← get_pending; mret (find (fun t => String.eqb (rt_token_hash t) token_hash) (refresh_tokens d)).

(** [save]: [session.add] + [flush]; the primary key and the unique index on
    [token_hash] reject a duplicate with an IntegrityError. *)
Definition save (t : RefreshToken) : M RefreshToken :=
  d ← get_pending;
  if existsb (fun r => Nat.eqb (rt_id r) (rt_id t) || String.eqb (rt_token_hash r) (rt_token_hash t))
       (refresh_tokens d)
  then raise IntegrityError
  else put_pending (mkDb (users d) (refresh_tokens d ++ [t])) ;; mret t.

(** [update]: select by id with [scalar_one], then [update_model]. *)
Definition update (t : RefreshToken) : M unit :=
  d ← get_pending;
  if existsb (fun r => Nat.eqb (rt_id r) (rt_id t)) (refresh_tokens d)
  then put_pending (mkDb (users d)
         (map (fun r => if Nat.eqb (rt_id r) (rt_id t) then rt_update_model r t else r)
            (refresh_tokens d)))
  else raise NoResultFound.

(** [revoke_by_token_hash]: [UPDATE ... WHERE token_hash = h SET revoked_at] *)
Definition revoke_by_token_hash (token_hash : string) (revoked_at : Z) : M unit :=
  d ← get_pending;
  put_pending (mkDb (users d)
    (map (fun r => if String.eqb (rt_token_hash r) token_hash then set_revoked_at r revoked_at else r)
       (refresh_tokens d))).

(** [revoke_all_for_user]: [WHERE user_id = u AND revoked_at IS NULL] *)
Definition revoke_all_for_user (user_id : nat) (revoked_at : Z) : M unit :=
  d ← get_pending;
  put_pending (mkDb (users d)
    (map (fun r => if Nat.eqb (rt_user_id r) user_id && negb (is_revoked r)
                   then set_revoked_at r revoked_at else r)
       (refresh_tokens d))).

(** [revoke_family]: [WHERE family_id = f AND revoked_at IS NULL] *)
Definition revoke_family_rows (family_id : nat) (revoked_at : Z) (rows : list RefreshToken) :=
  map (fun r => if Nat.eqb (rt_family_id r) family_id && negb (is_revoked r)
                then set_revoked_at r revoked_at else r) rows.

Definition revoke_family (family_id : nat) (revoked_at : Z) : M unit :=
  d ← get_pending;
  put_pending (mkDb (users d) (revoke_family_rows family_id revoked_at (refresh_tokens d))).

End RefreshTokenRepo.

Module UserRepo.

(** [get_by_id] *)
Definition get_by_id (user_id : nat) : M (option User) :=
  d ← get_pending; mret (find (fun u => Nat.eqb (u_id u) user_id) (users d)).

(** [get_by_email] *)
Definition get_by_email (email : string) : M (option User) :=
  d ← get_pending; mret (find (fun u => String.eqb (u_email u) email) (users d)).

(** [exists_by_email] *)
Definition exists_by_email (email : string) : M bool :=
  d ← get_pending; mret (existsb (fun u => String.eqb (u_email u) email) (users d)).

(** [save]: primary key and unique email index. *)
Definition save (u : User) : M User :=
  d ← get_pending;
  if existsb (fun r => Nat.eqb (u_id r) (u_id u) || String.eqb (u_email r) (u_email u)) (users d)
  then raise IntegrityError
  else put_pending (mkDb (users d ++ [u]) (refresh_tokens d)) ;; mret u.

(** [update]: select by id with [scalar_one], then [update_model]. *)
Definition update_rows (u : User) (rows : list User) : list User :=
  map (fun r => if Nat.eqb (u_id r) (u_id u) then user_update_model r u else r) rows.

Definition update (u : User) : M unit :=
  d ← get_pending;
  if existsb (fun r => Nat.eqb (u_id r) (u_id u)) (users d)
  then put_pending (mkDb (update_rows u (users d)) (refresh_tokens d))
  else raise NoResultFound.

End UserRepo.

(** ** Value objects and policies on strings *)

(** Character classes of Python's [str] methods on ASCII. *)
Definition is_py_space (c : ascii) : bool :=
  let n := nat_of_ascii c in
  Nat.eqb n 32 || (Nat.leb 9 n && Nat.leb n 13) || (Nat.leb 28 n && Nat.leb n 31).
Definition is_upper (c : ascii) : bool := let n := nat_of_ascii c in Nat.leb 65 n && Nat.leb n 90.
Definition is_lower (c : ascii) : bool := let n := nat_of_ascii c in Nat.leb 97 n && Nat.leb n 122.
Definition is_digit (c : ascii) : bool := let n := nat_of_ascii c in Nat.leb 48 n && Nat.leb n 57.
Definition is_alpha (c : ascii) : bool := is_upper c || is_lower c.

(** [str.lower] on ASCII *)
Definition lower_ascii (c : ascii) : ascii :=
  if is_upper c then ascii_of_nat (nat_of_ascii c + 32) else c.
Definition str_lower (s : string) : string :=
  string_of_list_ascii (map lower_ascii (list_ascii_of_string s)).

(** A regular expression made of a sequence of repeated character classes,
    [class{min,max}], as [re.match] runs it: anchored at the start, with
    backtracking over every admissible repetition count. *)
Record Item := mkItem {
  item_class : ascii -> bool;
  item_min : nat;
  item_max : option nat
}.

(** Python's [$] without MULTILINE: end of string, or a final newline. *)
Definition at_end (s : list ascii) : bool :=
  match s with
  | [] => true
  | [c] => Ascii.eqb c "010"%char
  | _ => false
  end.

Definition item_counts (it : Item) (len : nat) : list nat :=
  let hi := match item_max it with Some m => Nat.min m len | None => len end in
  seq (item_min it) (S hi - item_min it).

Fixpoint re_match (items : list Item) (s : list ascii) : bool :=
  match items with
  | [] => at_end s
  | it :: rest =>
    existsb (fun k => forallb (item_class it) (take k s) && re_match rest (drop k s))
      (item_counts it (length s))
  end.

Definition in_chars (cs : string) (c : ascii) : bool :=
  existsb (Ascii.eqb c) (list_ascii_of_string cs).

(** [^[a-zA-Z0-9._%+-]+@[a-zA-Z0-9.-]+\.[a-zA-Z]{2,}$] *)
Definition email_pattern : list Item := [
  mkItem (fun c => is_alpha c || is_digit c || in_chars "._%+-" c) 1 None;
  mkItem (Ascii.eqb "@"%char) 1 (Some 1%nat);
  mkItem (fun c => is_alpha c || is_digit c || in_chars ".-" c) 1 None;
  mkItem (Ascii.eqb "."%char) 1 (Some 1%nat);
  mkItem is_alpha 2 None
].

(** [Email.__post_init__]: the value object's validation; [Ok] carries the
    stored value. *)
Definition email_check (value : string) : outcome string :=
  let cs := list_ascii_of_string value in
  if String.eqb value "" || forallb is_py_space cs then Err (ValueError "Email cannot be empty")
  else if negb (re_match email_pattern cs) then Err (ValueError "Invalid email format")
  else if Nat.ltb 255 (String.length value) then Err (ValueError "Email cannot exceed 255 characters")
  else Ok value.

(** [Email(raw).normalize()] = [Email(Email(raw).value.lower())] *)
Definition email_normalize (raw : string) : outcome string :=
  match email_check raw with
  | Ok v => email_check (str_lower v)
  | Err e => Err e
  end.

(** [PasswordPolicy.validate] on an ASCII password, where [is_digit],
    [is_alpha] and [String.length] agree with Python's [str.isdigit],
    [str.isalpha] and [len]. *)
Definition password_validate (password : string) : outcome unit :=
  let cs := list_ascii_of_string password in
  if String.eqb password "" then Err (ValueError "Password cannot be empty")
  else if Nat.ltb (String.length password) 8 then Err (ValueError "Password must be at least 8 characters")
  else if Nat.ltb 128 (String.length password) then Err (ValueError "Password cannot exceed 128 characters")
  else if negb (existsb is_digit cs) then Err (ValueError "Password must contain at least one digit")
  else if negb (existsb is_alpha cs) then Err (ValueError "Password must contain at least one letter")
  else Ok tt.

(** ** Tokens handed back to the caller *)

(** Claims of an access token issued by [JwtService.issue_access_token]:
    [sub], [roles], [ver] (signature, jti, iss, aud and times are the JWT
    library's business and are not modelled). *)
Record AccessToken := mkAccessToken {
  at_sub : nat;
  at_roles : list string;
  at_ver : Z
}.

(** [LoginResponse] / [RefreshResponse] *)
Record TokenResponse := mkTokenResponse {
  access_token : AccessToken;
  refresh_token : string;
  csrf_token : string
}.

Definition issue_access_token (user_id : nat) (roles : list string) (token_version : Z) : AccessToken :=
  mkAccessToken user_id roles token_version.

Definition seconds_per_day : Z := 86400.

(** ** Per-request authentication ([presentation/api/deps/auth_deps.py]) *)

(** [PyJWT]'s verification outcome: the failure classes the handler
    distinguishes, or the decoded claims ([sub], [roles], [ver]; absent
    claims are [None]). *)
Inductive JwtError := ExpiredSignatureError | InvalidTokenError.

Record Claims := mkClaims {
  cl_sub : option string;
  cl_roles : option (list string);
  cl_ver : option Z
}.

(** [PrincipalDTO] *)
Record Principal := mkPrincipal {
  p_user_id : nat;
  p_email : string;
  p_roles : list string;
  p_token_version : Z;
  p_is_active : bool
}.

(** [str.replace(old, new)]: replaces every occurrence, left to right. *)
Fixpoint replace_go (fuel : nat) (pat rep s : list ascii) : list ascii :=
  match fuel with
  | O => s
  | S fuel' =>
    match s with
    | [] => []
    | c :: s' =>
      if bool_decide (pat <> []) && bool_decide (take (length pat) s = pat)
      then rep ++ replace_go fuel' pat rep (drop (length pat) s)
      else c :: replace_go fuel' pat rep s'
    end
  end.

Definition str_replace (s pat rep : string) : string :=
  let cs := list_ascii_of_string s in
  string_of_list_ascii
    (replace_go (length cs) (list_ascii_of_string pat) (list_ascii_of_string rep) cs).

(** The last [except Exception as e] handler re-raises every other failure,
    including the [HTTPException]s raised inside the [try], as a 401 whose
    detail is ["Authentication failed: " + str(e)]; Starlette renders
    [str(HTTPException)] as ["401: " + detail]. *)
Definition auth_failed (e : string) : Error :=
  HTTPUnauthorized ("Authentication failed: " ++ e)%string.
Definition http_401_str (detail : string) : string := ("401: " ++ detail)%string.

(** ** RBAC check with the permission cache *)

(** [app/domain/entities/permission.py] *)
Record Permission := mkPermission {
  perm_id : nat;
  perm_code : string
}.

(** [RbacPolicy.has_permission]: membership in [{p.code for p in perms}] *)
Definition has_permission (user_permissions : list Permission) (required_permission_code : string) : bool :=
  existsb (fun p => String.eqb (perm_code p) required_permission_code) user_permissions.

(** [MemoryCache._cache] restricted to the [permissions:*] keys this core
    writes: key -> (value, expires_at). *)
Definition Cache := gmap string (list Permission * Z).

(** [MemoryCache.get] at instant [now] ([datetime.utcnow()]) *)
Definition cache_get (c : Cache) (key : string) (now : Z) : Cache * option (list Permission) :=
  match c !! key with
  | None => (c, None)
  | Some (value, expires_at) =>
    if expires_at <=? now then (delete key c, None) else (c, Some value)
  end.

(** [MemoryCache.set] at instant [now] *)
Definition cache_set (c : Cache) (key : string) (value : list Permission) (ttl_seconds now : Z) : Cache :=
  <[key := (value, now + ttl_seconds)]> c.

(** The observable effects of a permission resolution, in order. *)
Inductive Effect :=
  | CacheGet (key : string)
  | CacheSet (key : string)
  | RbacQuery (roles : list string).

(** [f"permissions:{':'.join(sorted(roles))}"] *)
Definition cache_key (roles : list string) : string :=
  ("permissions:" ++ String.concat ":" (merge_sort String.le roles))%string.

Section Rbac.

(** [RbacRepository.get_permissions_for_roles] on the current role/permission
    graph. *)
Variable get_permissions_for_roles : list string -> list Permission.
(** [cache_ttl_seconds] (default 300). *)
Variable cache_ttl_seconds : Z.

(** [CheckPermissionUseCase._get_permissions_for_roles]; [t_get] and [t_set]
    are the instants of the cache read and of the cache write. *)
Definition resolve_permissions (roles : list string) (c : Cache) (t_get t_set : Z)
    : list Permission * Cache * list Effect :=
  match roles with
  | [] => ([], c, [])
  | _ =>
    let key := cache_key roles in
    match cache_get c key t_get with
    | (c1, Some cached) => (cached, c1, [CacheGet key])
    | (c1, None) =>
      let permissions := get_permissions_for_roles roles in
      (permissions, cache_set c1 key permissions cache_ttl_seconds t_set,
       [CacheGet key; RbacQuery roles; CacheSet key])
    end
  end.

(** [CheckPermissionUseCase.execute] *)
Definition check_permission (user_id : nat) (roles : list string) (required_permission : string)
    (c : Cache) (t_get t_set : Z) : outcome unit * Cache * list Effect :=
  let '(permissions, c', eff) := resolve_permissions roles c t_get t_set in
  (if has_permission permissions required_permission then Ok tt
   else Err InsufficientPermissionsError, c', eff).

End Rbac.

Section Auth.

(** [TokenHasherPort.hash_token]: the keyed digest, deterministic. *)
Variable hash_token : string -> string.
(** [PasswordHasherPort.hash_password] / [verify_password]. *)
Variable hash_password : string -> string.
Variable verify_password : string -> string -> bool.
(** [AuthRepository.get_user_roles] on the (read-only here) user_roles table. *)
Variable get_user_roles : nat -> list string.
(** [refresh_token_ttl_days] of the use cases (default 14). *)
Variable refresh_token_ttl_days : Z.

(** [RefreshUseCase.execute].  Inputs: the request ([refresh_token], [ip],
    [user_agent]), the instant returned by [clock.now()], and the values
    drawn by [uuid.uuid4()], [generate_token()] and [secrets.token_urlsafe]. *)
Definition refresh (raw : string) (ip user_agent : option string) (now : Z)
    (new_id : nat) (new_raw csrf : string) : M TokenResponse :=
  let token_hash := hash_token raw in
  with_uow (
    o ← RefreshTokenRepo.get_by_token_hash token_hash;
    match o with
    | None => raise RefreshTokenNotFoundError
    | Some old_token =>
      if is_expired old_token now then raise RefreshTokenExpiredError
      else if is_revoked old_token then raise RefreshTokenRevokedError
      else if is_replaced old_token then
        (* reuse detected: revoke the family, bump token_version, commit, raise *)
        RefreshTokenRepo.revoke_family (rt_family_id old_token) now ;;
        ou ← UserRepo.get_by_id (rt_user_id old_token);
        match ou with
        | Some u => UserRepo.update (with_token_version_incremented u now)
        | None => mret tt
        end ;;
        commit ;;
        log_event "security.token_reuse_detected" (Some (rt_user_id old_token)) ;;
        raise RefreshTokenReuseDetectedError
      else
        ou ← UserRepo.get_by_id (rt_user_id old_token);
        match ou with
        | None => raise UserNotFoundError
        | Some u =>
          if negb (u_is_active u) then raise UserNotActiveError
          else
            let roles := get_user_roles (u_id u) in
            let access := issue_access_token (u_id u) roles (u_token_version u) in
            let new_hash := hash_token new_raw in
            let new_entity :=
              mkRefreshToken new_id (u_id u) new_hash (rt_family_id old_token) now
                (now + refresh_token_ttl_days * seconds_per_day) None None ip user_agent in
            _ ← RefreshTokenRepo.save new_entity;
            RefreshTokenRepo.update (mark_as_replaced old_token new_id) ;;
            commit ;;
            log_event "user.token_refreshed" (Some (u_id u)) ;;
            mret (mkTokenResponse access new_raw csrf)
        end
    end).


(** [LoginUseCase.execute].  Inputs: the request, [clock.now()], the two
    [uuid.uuid4()] values (row id, family id), [generate_token()] and the
    CSRF token. *)
Definition login (email password : string) (ip user_agent : option string) (now : Z)
    (new_id family_id : nat) (raw csrf : string) : M TokenResponse :=
  match email_normalize email with
  | Err e => raise e
  | Ok em =>
    with_uow (
      ou ← UserRepo.get_by_email em;
      match ou with
      | None => raise (InvalidCredentialsError "Invalid email or password")
      | Some u =>
        if negb (verify_password password (u_password_hash u)) then
          log_event "user.login_failed" (Some (u_id u)) ;;
          raise (InvalidCredentialsError "Invalid email or password")
        else if negb (u_is_active u) then
          log_event "user.login_failed" (Some (u_id u)) ;;
          raise UserNotActiveError
        else
          let roles := get_user_roles (u_id u) in
          let access := issue_access_token (u_id u) roles (u_token_version u) in
          let entity :=
            mkRefreshToken new_id (u_id u) (hash_token raw) family_id now
              (now + refresh_token_ttl_days * seconds_per_day) None None ip user_agent in
          _ ← RefreshTokenRepo.save entity;
          commit ;;
          log_event "user.login_success" (Some (u_id u)) ;;
          mret (mkTokenResponse access raw csrf)
      end)
  end.

(** [RegisterUseCase.execute]: returns [RegisterResponse(user_id, email)].
    Inputs: the request, [uuid.uuid4()] and [clock.now()]. *)
Definition register (email password : string) (new_id : nat) (now : Z) : M (nat * string) :=
  match password_validate password with
  | Err e => raise e
  | Ok _ =>
    match email_normalize email with
    | Err e => raise e
    | Ok em =>
      with_uow (
        found ← UserRepo.exists_by_email em;
        if (found : bool) then raise (UserAlreadyExistsError ("User with email " ++ em ++ " already exists")%string)
        else
          let user := mkUser new_id em (hash_password password) true false 0 now now in
          u ← UserRepo.save user;
          commit ;;
          log_event "user.registered" (Some (u_id u)) ;;
          mret (u_id u, u_email u))
    end
  end.

(** [LogoutUseCase.execute] *)
Definition logout (raw : string) (now : Z) : M unit :=
  let token_hash := hash_token raw in
  with_uow (
    o ← RefreshTokenRepo.get_by_token_hash token_hash;
    match o with
    | None => mret tt  (* already logged out *)
    | Some t =>
      RefreshTokenRepo.revoke_by_token_hash token_hash now ;;
      commit ;;
      log_event "user.logout" (Some (rt_user_id t))
    end).

(** [LogoutAllUseCase.execute] *)
Definition logout_all (user_id : nat) (now : Z) : M unit :=
  with_uow (
    ou ← UserRepo.get_by_id user_id;
    match ou with
    | None => raise UserNotFoundError
    | Some u =>
      RefreshTokenRepo.revoke_all_for_user user_id now ;;
      UserRepo.update (with_token_version_incremented u now) ;;
      commit ;;
      log_event "user.logout_all" (Some user_id)
    end).

(** [ChangePasswordUseCase.execute] *)
Definition change_password (user_id : nat) (old_password new_password : string) (now : Z) : M unit :=
  match password_validate new_password with
  | Err e => raise e
  | Ok _ =>
    with_uow (
      ou ← UserRepo.get_by_id user_id;
      match ou with
      | None => raise UserNotFoundError
      | Some u =>
        if negb (verify_password old_password (u_password_hash u)) then
          raise (InvalidCredentialsError "Current password is incorrect")
        else
          let updated_user := with_new_password u (hash_password new_password) now in
          UserRepo.update updated_user ;;
          RefreshTokenRepo.revoke_all_for_user (u_id u) now ;;
          commit ;;
          log_event "user.password_changed" (Some (u_id u))
      end)
  end.


(** [JwtService.verify_access_token] and [uuid.UUID(...)] *)
Variable verify_access_token : string -> JwtError + Claims.
Variable parse_uuid : string -> option nat.

(** [get_current_principal] *)
Definition get_current_principal (authorization : option string) : M Principal :=
  match authorization with
  | None => raise (HTTPUnauthorized "Missing or invalid authorization header")
  | Some header =>
    if negb (String.prefix "Bearer " header) then
      raise (HTTPUnauthorized "Missing or invalid authorization header")
    else
      let token := str_replace header "Bearer " "" in
      match verify_access_token token with
      | inl ExpiredSignatureError => raise (HTTPUnauthorized "Token has expired")
      | inl InvalidTokenError => raise (HTTPUnauthorized "Invalid token")
      | inr claims =>
        match cl_sub claims with
        | None => raise (auth_failed "'sub'")
        | Some sub =>
          match parse_uuid sub with
          | None => raise (auth_failed "badly formed hexadecimal UUID string")
          | Some user_id =>
            let roles := default [] (cl_roles claims) in
            let token_version := default 0 (cl_ver claims) in
            ou ← with_uow (UserRepo.get_by_id user_id);
            match ou with
            | None => raise (auth_failed (http_401_str "User not found"))
            | Some u =>
              if negb (u_is_active u) then
                raise (auth_failed (http_401_str "User account is not active"))
              else if negb (u_token_version u =? token_version) then
                raise (auth_failed (http_401_str "Token has been revoked"))
              else mret (mkPrincipal (u_id u) (u_email u) roles (u_token_version u) (u_is_active u))
            end
          end
        end
      end
  end.

(** The operations of the core that touch the database.  ([CheckPermission]
    only reads the RBAC graph and writes the cache.) *)
Inductive Op :=
  | OpRegister (email password : string) (new_id : nat) (now : Z)
  | OpLogin (email password : string) (ip user_agent : option string) (now : Z)
      (new_id family_id : nat) (raw csrf : string)
  | OpRefresh (raw : string) (ip user_agent : option string) (now : Z)
      (new_id : nat) (new_raw csrf : string)
  | OpLogout (raw : string) (now : Z)
  | OpLogoutAll (user_id : nat) (now : Z)
  | OpChangePassword (user_id : nat) (old_password new_password : string) (now : Z)
  | OpAuthenticate (authorization : option string).

Definition op_m (op : Op) : M unit :=
  match op with
  | OpRegister e p i n => _ ← register e p i n; mret tt
  | OpLogin e p ip ua n i f r c => _ ← login e p ip ua n i f r c; mret tt
  | OpRefresh r ip ua n i nr c => _ ← refresh r ip ua n i nr c; mret tt
  | OpLogout r n => logout r n
  | OpLogoutAll u n => logout_all u n
  | OpChangePassword u o p n => change_password u o p n
  | OpAuthenticate a => _ ← get_current_principal a; mret tt
  end.

(** The database a request leaves behind: what its session committed. *)
Definition run_op (op : Op) (d : Db) : Db := committed (fst (op_m op (fresh_session d))).

End Auth.

(** ** The rest of the cited code *)

(** [RefreshToken.can_be_used] *)
Definition can_be_used (t : RefreshToken) (current_time : Z) : bool :=
  negb (is_expired t current_time) && negb (is_revoked t) && negb (is_replaced t).


(** [PasswordPolicy.is_valid]: [validate] with [ValueError] caught. *)
Definition password_is_valid (password : string) : outcome bool :=
  match password_validate password with
  | Ok _ => Ok true
  | Err (ValueError _) => Ok false
  | Err e => Err e
  end.

(** [RbacPolicy.has_any_permission] / [has_all_permissions] over
    [{p.code for p in user_permissions}] *)
Definition has_any_permission (user_permissions : list Permission)
    (required_permission_codes : list string) : bool :=
  let permission_codes := map perm_code user_permissions in
  existsb (fun code => existsb (String.eqb code) permission_codes) required_permission_codes.

Definition has_all_permissions (user_permissions : list Permission)
    (required_permission_codes : list string) : bool :=
  let permission_codes := map perm_code user_permissions in
  forallb (fun code => existsb (String.eqb code) permission_codes) required_permission_codes.

(** [MemoryCache.delete_pattern], for any value type: the store is
    [key -> (value, expires_at)]. *)
Section MemoryCacheOps.
Context {V : Type}.

(** [fnmatch.fnmatch(key, pattern)] *)
Variable fnmatch : string -> string -> bool.

(** [MemoryCache.delete_pattern] at instant [now]: collect the expired keys
    and the live keys matching [pattern], then pop them one by one. *)
Definition delete_pattern (c : gmap string (V * Z)) (pattern : string) (now : Z)
    : gmap string (V * Z) :=
  let keys_to_delete :=
    map fst (List.filter (fun '(key, (_, expires_at)) => (expires_at <=? now) || fnmatch key pattern)
               (map_to_list c)) in
  foldl (fun acc key => delete key acc) c keys_to_delete.
End MemoryCacheOps.

(** A [403 Forbidden] raised by a route dependency. *)
Inductive Forbidden := HTTPForbidden (detail : string).

(** [verify_csrf_token]: the double-submit check of the [X-CSRF-Token]
    header against the [csrf_token] cookie; [not x] holds for a missing or
    empty string. *)
Definition verify_csrf_token (x_csrf_token csrf_token : option string) : Forbidden + unit :=
  let missing (o : option string) := match o with None => true | Some s => String.eqb s "" end in
  if missing x_csrf_token || missing csrf_token then inl (HTTPForbidden "Missing CSRF token")
  else if bool_decide (x_csrf_token = csrf_token) then inr tt
  else inl (HTTPForbidden "CSRF token mismatch").

(** [require_permission(permission_code)]'s [permission_checker] for the
    principal [get_current_principal] returned: every failure of the check
    becomes a 403. *)
Definition permission_checker (get_permissions_for_roles : list string -> list Permission)
    (cache_ttl_seconds : Z) (permission_code : string) (principal : Principal)
    (c : Cache) (t_get t_set : Z) : (Forbidden + unit) * Cache * list Effect :=
  let '(o, c', eff) := check_permission get_permissions_for_roles cache_ttl_seconds
                         (p_user_id principal) (p_roles principal) permission_code c t_get t_set in
  (match o with
   | Ok _ => inr tt
   | Err _ => inl (HTTPForbidden ("Permission denied: " ++ permission_code)%string)
   end, c', eff).

(** ** Reading of the specification *)

(** The spec's list of the operations allowed to move [token_version]:
    password change, logout-all, and the refresh call that takes the
    reuse-detection path (a stored token that is neither expired nor revoked
    but already replaced).  Written from the spec, to be compared with
    [run_op]. *)
Definition token_version_may_change (hash_token : string -> string) (op : Op) (d : Db) : bool :=
  match op with
  | OpChangePassword _ _ _ _ | OpLogoutAll _ _ => true
  | OpRefresh raw _ _ now _ _ _ =>
    match find (fun t => String.eqb (rt_token_hash t) (hash_token raw)) (refresh_tokens d) with
    | Some t => negb (is_expired t now) && negb (is_revoked t) && is_replaced t
    | None => false
    end
  | _ => false
  end.

(** ** Sample data *)

(** A keyed digest for the examples: ["h:" ++ raw]. *)
Definition hk (s : string) : string := ("h:" ++ s)%string.

(** A password verifier for the examples: the stored hash is ["pw:" ++ password]. *)
Definition pw_verify (password password_hash : string) : bool :=
  String.eqb ("pw:" ++ password) password_hash.

Definition u_alice : User := mkUser 1 "alice@example.com" "pw:secret123" true false 0 0 0.

(** Token 10 was rotated into token 11; both belong to family 100. *)
Definition rt_rotated : RefreshToken :=
  mkRefreshToken 10 1 (hk "r1") 100 0 1000 None (Some 11%nat) None None.
Definition rt_current : RefreshToken :=
  mkRefreshToken 11 1 (hk "r2") 100 0 1000 None None None None.

Definition d_sample : Db := mkDb [u_alice] [rt_rotated; rt_current].

(** One live refresh token, for the logout example. *)
Definition d_logout : Db :=
  mkDb [] [mkRefreshToken 10 1 (hk "r1") 100 0 1000 None None None None].

(** A token verifier and a UUID parser for the examples: every token
    carries [sub = "1"], the role [customer] and [ver = 0]. *)
Definition verify_sample (_ : string) : JwtError + Claims :=
  inr (mkClaims (Some "1") (Some ["customer"]) (Some 0)).
Definition parse_sample (s : string) : option nat := if String.eqb s "1" then Some 1%nat else None.

(** ** Proofs *)

Ltac unfold_m :=
  unfold mbind, M_bind, mret, M_ret, get_pending, put_pending, commit, rollback,
    log_event, raise, with_uow,
    RefreshTokenRepo.get_by_token_hash, RefreshTokenRepo.save, RefreshTokenRepo.update,
    RefreshTokenRepo.revoke_by_token_hash, RefreshTokenRepo.revoke_all_for_user,
    RefreshTokenRepo.revoke_family, UserRepo.get_by_id, UserRepo.get_by_email,
    UserRepo.exists_by_email, UserRepo.save, UserRepo.update in *; simpl in *.
Ltac unfold_m2 := unfold_m; unfold_m.

(** *** Rows and repositories *)

Lemma user_update_model_incr (u : User) (now : Z) :
  user_update_model u (with_token_version_incremented u now) = with_token_version_incremented u now.
Proof. by destruct u. Qed.

Lemma user_update_model_version (m v : User) : u_token_version (user_update_model m v) = u_token_version v.
Proof. done. Qed.

Lemma rt_update_model_mark (t : RefreshToken) (i : nat) :
  rt_update_model t (mark_as_replaced t i) = mark_as_replaced t i.
Proof. by destruct t. Qed.

Lemma find_app_some {A} (p : A -> bool) (l k : list A) (x : A) :
  find p l = Some x -> find p (l ++ k) = Some x.
Proof. induction l as [|a l IH]; simpl; [done|]. by destruct (p a). Qed.

Lemma existsb_find {A} (p : A -> bool) (l : list A) :
  existsb p l = match find p l with Some _ => true | None => false end.
Proof. induction l as [|a l IH]; simpl; [done|]. by destruct (p a). Qed.

Lemma find_update_rows (uid : nat) (v : User) (us : list User) (u : User) :
  u_id v = uid ->
  find (fun x => Nat.eqb (u_id x) uid) us = Some u ->
  find (fun x => Nat.eqb (u_id x) uid) (UserRepo.update_rows v us) = Some (user_update_model u v).
Proof.
  intros Hv. induction us as [|r us IH]; simpl; [discriminate|].
  rewrite Hv. destruct (Nat.eqb (u_id r) uid) eqn:E; simpl.
  - intros [= <-]. simpl. by rewrite E.
  - rewrite E. exact IH.
Qed.

Lemma find_update_rows_other (uid : nat) (v : User) (us : list User) :
  u_id v <> uid ->
  find (fun x => Nat.eqb (u_id x) uid) (UserRepo.update_rows v us) = find (fun x => Nat.eqb (u_id x) uid) us.
Proof.
  intros Hv. induction us as [|r us IH]; simpl; [done|].
  destruct (Nat.eqb (u_id r) (u_id v)) eqn:E; simpl.
  - apply Nat.eqb_eq in E. assert (Nat.eqb (u_id r) uid = false) as -> by (apply Nat.eqb_neq; lia).
    exact IH.
  - by rewrite IH.
Qed.

Lemma update_rows_bump (v u0 : User) (us : list User) (uid : nat) (u : User) :
  u_id v = u_id u0 ->
  find (fun x => Nat.eqb (u_id x) (u_id u0)) us = Some u0 ->
  u_token_version v = u_token_version u0 + 1 ->
  find (fun x => Nat.eqb (u_id x) uid) us = Some u ->
  exists u', find (fun x => Nat.eqb (u_id x) uid) (UserRepo.update_rows v us) = Some u' /\
    u_token_version u <= u_token_version u' /\
    (u_token_version u' <> u_token_version u -> uid = u_id u0).
Proof.
  intros Hid Hu0 Hv Hu.
  destruct (Nat.eq_dec uid (u_id u0)) as [->|Hne].
  - rewrite Hu0 in Hu. injection Hu as <-.
    exists (user_update_model u0 v). split; [by apply find_update_rows|].
    rewrite user_update_model_version. lia.
  - exists u. rewrite find_update_rows_other by lia. split; [done|]. split; [lia|]. done.
Qed.

Lemma revoke_family_rows_revoked (f : nat) (now : Z) (rows : list RefreshToken) (t : RefreshToken) :
  In t (RefreshTokenRepo.revoke_family_rows f now rows) -> rt_family_id t = f -> is_revoked t = true.
Proof.
  induction rows as [|r rows IH]; simpl; [done|].
  intros [Ht|Ht] Hf; [|by apply IH].
  subst t. destruct (Nat.eqb (rt_family_id r) f && negb (is_revoked r)) eqn:E; [done|].
  apply andb_false_iff in E as [E|E].
  - apply Nat.eqb_neq in E. simpl in Hf. congruence.
  - by apply negb_false_iff in E.
Qed.

(** Discarding the result of a use case keeps the session it leaves. *)
Lemma bind_unit_state {A} (m : M A) (s : Session) :
  fst ((_ ← m; mret tt) s) = fst (m s).
Proof. unfold mbind, M_bind, mret, M_ret. by destruct (m s) as [s' [a|e]]. Qed.

(** *** Refresh *)

Section RefreshProofs.
Variable hash_token : string -> string.
Variable get_user_roles : nat -> list string.
Variable ttl : Z.

(** Claim C1: a refresh presenting a live (not expired, not revoked) but
    already replaced token fails with ReuseDetected, and the session it
    leaves has committed the remediation: every token of the family is
    revoked (only the not yet revoked ones are stamped) and the owner's
    [token_version] is incremented. *)
Theorem refresh_reuse_detected_commits_remediation (d : Db) (raw : string) (ip ua : option string)
    (now : Z) (new_id : nat) (new_raw csrf : string) (old : RefreshToken) (u : User) :
  find (fun t => String.eqb (rt_token_hash t) (hash_token raw)) (refresh_tokens d) = Some old ->
  now < rt_expires_at old ->
  rt_revoked_at old = None ->
  rt_replaced_by_token_id old <> None ->
  find (fun x => Nat.eqb (u_id x) (rt_user_id old)) (users d) = Some u ->
  let '(s, r) := refresh hash_token get_user_roles ttl raw ip ua now new_id new_raw csrf (fresh_session d) in
  r = Err RefreshTokenReuseDetectedError /\
  committed s = mkDb (UserRepo.update_rows (with_token_version_incremented u now) (users d))
                     (RefreshTokenRepo.revoke_family_rows (rt_family_id old) now (refresh_tokens d)) /\
  (forall t, In t (refresh_tokens (committed s)) -> rt_family_id t = rt_family_id old -> is_revoked t = true) /\
  find (fun x => Nat.eqb (u_id x) (rt_user_id old)) (users (committed s))
    = Some (with_token_version_incremented u now).
Proof.
  intros Hfind Hexp Hrev Hrep Hu.
  assert (E1 : is_expired old now = false) by (unfold is_expired; apply Z.leb_gt; lia).
  assert (E2 : is_revoked old = false) by (unfold is_revoked; by rewrite Hrev).
  assert (E3 : is_replaced old = true)
    by (unfold is_replaced; by destruct (rt_replaced_by_token_id old)).
  pose proof (find_some _ _ Hu) as [Hin Hid]. apply Nat.eqb_eq in Hid.
  assert (E4 : existsb (fun r => Nat.eqb (u_id r) (u_id u)) (users d) = true).
  { apply existsb_exists. exists u. split; [done|]. apply Nat.eqb_refl. }
  unfold refresh; unfold_m2.
  rewrite Hfind, E1, E2, E3; simpl.
  rewrite Hu. simpl. rewrite E4. simpl.
  split; [done|split; [done|split]].
  - intros t Ht Hf. exact (revoke_family_rows_revoked _ _ _ _ Ht Hf).
  - rewrite (find_update_rows _ _ _ u); [by rewrite user_update_model_incr| |done].
    simpl. done.
Qed.

Lemma refresh_reuse_path (d : Db) (raw : string) (ip ua : option string)
    (now : Z) (new_id : nat) (new_raw csrf : string) (old : RefreshToken) :
  find (fun t => String.eqb (rt_token_hash t) (hash_token raw)) (refresh_tokens d) = Some old ->
  is_expired old now = false -> is_revoked old = false -> is_replaced old = true ->
  snd (refresh hash_token get_user_roles ttl raw ip ua now new_id new_raw csrf (fresh_session d))
  = Err RefreshTokenReuseDetectedError.
Proof.
  intros Hfind E1 E2 E3.
  unfold refresh; unfold_m2.
  rewrite Hfind, E1, E2, E3; simpl.
  destruct (find (fun x => Nat.eqb (u_id x) (rt_user_id old)) (users d)) as [u|] eqn:Hu; simpl.
  - pose proof (find_some _ _ Hu) as [Hin Hid]. apply Nat.eqb_eq in Hid.
    assert (E4 : existsb (fun r => Nat.eqb (u_id r) (u_id u)) (users d) = true).
    { apply existsb_exists. exists u. split; [done|]. apply Nat.eqb_refl. }
    rewrite E4. done.
  - done.
Qed.

(** Claim C2: the outcome of a refresh is decided by the first matching
    condition, in the order: no stored token for the digest (NotFound),
    expired at [now] (Expired), revoked (Revoked), replaced (ReuseDetected).
    An expired token fails Expired whatever its other fields, and a live
    revoked token fails Revoked whether or not it was replaced. *)
Theorem refresh_failure_order (d : Db) (raw : string) (ip ua : option string)
    (now : Z) (new_id : nat) (new_raw csrf : string) :
  let r := snd (refresh hash_token get_user_roles ttl raw ip ua now new_id new_raw csrf (fresh_session d)) in
  match find (fun t => String.eqb (rt_token_hash t) (hash_token raw)) (refresh_tokens d) with
  | None => r = Err RefreshTokenNotFoundError
  | Some t =>
    (rt_expires_at t <= now -> r = Err RefreshTokenExpiredError) /\
    (now < rt_expires_at t -> rt_revoked_at t <> None -> r = Err RefreshTokenRevokedError) /\
    (now < rt_expires_at t -> rt_revoked_at t = None -> rt_replaced_by_token_id t <> None ->
       r = Err RefreshTokenReuseDetectedError)
  end.
Proof.
  simpl.
  destruct (find (fun t => String.eqb (rt_token_hash t) (hash_token raw)) (refresh_tokens d))
    as [t|] eqn:Hfind.
  - split; [|split].
    + intros Hle. unfold refresh; unfold_m2. rewrite Hfind; simpl.
      assert (E1 : is_expired t now = true) by (unfold is_expired; apply Z.leb_le; lia).
      by rewrite E1.
    + intros Hlt Hrev. unfold refresh; unfold_m2. rewrite Hfind; simpl.
      assert (E1 : is_expired t now = false) by (unfold is_expired; apply Z.leb_gt; lia).
      assert (E2 : is_revoked t = true) by (unfold is_revoked; by destruct (rt_revoked_at t)).
      by rewrite E1, E2.
    + intros Hlt Hrev Hrep. apply (refresh_reuse_path _ _ _ _ _ _ _ _ t); [done| | |].
      * unfold is_expired; apply Z.leb_gt; lia.
      * unfold is_revoked; by rewrite Hrev.
      * unfold is_replaced; by destruct (rt_replaced_by_token_id t).
  - unfold refresh; unfold_m2. by rewrite Hfind.
Qed.

(** Claim C3: a refresh presenting an active token of an active user
    (with a fresh row id and a fresh raw token, as [uuid4] and
    [generate_token] provide) returns an access token at the user's current
    [token_version] and commits, in one transaction, the old row marked as
    replaced by the new id and a new row of the same family expiring
    [ttl] days after [now]; the returned raw token differs from the
    presented one. *)
Theorem refresh_active_rotates (d : Db) (raw : string) (ip ua : option string)
    (now : Z) (new_id : nat) (new_raw csrf : string) (old : RefreshToken) (u : User) :
  find (fun t => String.eqb (rt_token_hash t) (hash_token raw)) (refresh_tokens d) = Some old ->
  now < rt_expires_at old ->
  rt_revoked_at old = None ->
  rt_replaced_by_token_id old = None ->
  find (fun x => Nat.eqb (u_id x) (rt_user_id old)) (users d) = Some u ->
  u_is_active u = true ->
  (forall r, In r (refresh_tokens d) -> rt_id r <> new_id /\ rt_token_hash r <> hash_token new_raw) ->
  let new_row := mkRefreshToken new_id (u_id u) (hash_token new_raw) (rt_family_id old) now
                   (now + ttl * seconds_per_day) None None ip ua in
  let '(s, r) := refresh hash_token get_user_roles ttl raw ip ua now new_id new_raw csrf (fresh_session d) in
  r = Ok (mkTokenResponse (issue_access_token (u_id u) (get_user_roles (u_id u)) (u_token_version u))
            new_raw csrf) /\
  committed s = mkDb (users d)
    (map (fun x => if Nat.eqb (rt_id x) (rt_id old) then rt_update_model x (mark_as_replaced old new_id) else x)
       (refresh_tokens d) ++ [new_row]) /\
  In (mark_as_replaced old new_id) (refresh_tokens (committed s)) /\
  In new_row (refresh_tokens (committed s)) /\
  rt_family_id new_row = rt_family_id old /\
  new_raw <> raw.
Proof.
  intros Hfind Hexp Hrev Hrep Hu Hact Hfresh new_row.
  assert (E1 : is_expired old now = false) by (unfold is_expired; apply Z.leb_gt; lia).
  assert (E2 : is_revoked old = false) by (unfold is_revoked; by rewrite Hrev).
  assert (E3 : is_replaced old = false) by (unfold is_replaced; by rewrite Hrep).
  pose proof (find_some _ _ Hfind) as [Hold Hh]. apply String.eqb_eq in Hh.
  pose proof (Hfresh old Hold) as [Hoid _].
  assert (E4 : existsb (fun r => Nat.eqb (rt_id r) new_id || String.eqb (rt_token_hash r) (hash_token new_raw))
                 (refresh_tokens d) = false).
  { apply Is_true_false. intros Hx. apply Is_true_eq_true, existsb_exists in Hx as [r [Hr Hx]].
    destruct (Hfresh r Hr) as [Hi Hs]. apply orb_true_iff in Hx as [Hx|Hx].
    - by apply Nat.eqb_eq in Hx. - by apply String.eqb_eq in Hx. }
  assert (E5 : existsb (fun r => Nat.eqb (rt_id r) (rt_id old)) (refresh_tokens d ++ [new_row]) = true).
  { apply existsb_exists. exists old. split; [apply in_or_app; by left|]. apply Nat.eqb_refl. }
  unfold refresh; unfold_m2.
  rewrite Hfind, E1, E2, E3; simpl. rewrite Hu, Hact; simpl.
  fold new_row. rewrite E4; simpl. rewrite E5; simpl.
  rewrite map_app; simpl.
  assert (E6 : Nat.eqb new_id (rt_id old) = false) by (apply Nat.eqb_neq; congruence).
  rewrite E6.
  split; [done|split; [done|split; [|split; [|split; [done|]]]]].
  - apply in_or_app; left. apply in_map_iff. exists old. split; [|done].
    rewrite Nat.eqb_refl. apply rt_update_model_mark.
  - apply in_or_app; right. by left.
  - intros ->. destruct (Hfresh old Hold) as [_ Hs]. congruence.
Qed.
End RefreshProofs.

Lemma refresh_reuse_detected_commits_remediation_witness :
  let '(s, r) := refresh hk (fun _ : nat => ["customer"]) 14 "r1" None None 50 12 "r3" "csrf"
                   (fresh_session d_sample) in
  r = Err RefreshTokenReuseDetectedError /\
  committed s = mkDb (UserRepo.update_rows (with_token_version_incremented u_alice 50) (users d_sample))
                     (RefreshTokenRepo.revoke_family_rows (rt_family_id rt_rotated) 50 (refresh_tokens d_sample)) /\
  (forall t, In t (refresh_tokens (committed s)) -> rt_family_id t = rt_family_id rt_rotated ->
             is_revoked t = true) /\
  find (fun x => Nat.eqb (u_id x) (rt_user_id rt_rotated)) (users (committed s))
    = Some (with_token_version_incremented u_alice 50).
Proof.
  apply (refresh_reuse_detected_commits_remediation hk (fun _ : nat => ["customer"]) 14
           d_sample "r1" None None 50 12 "r3" "csrf" rt_rotated u_alice);
    [reflexivity | reflexivity | reflexivity | vm_compute; discriminate | reflexivity].
Defined.

Lemma refresh_active_rotates_witness :
  let new_row := mkRefreshToken 12 (u_id u_alice) (hk "r3") (rt_family_id rt_current) 50
                   (50 + 14 * seconds_per_day) None None None None in
  let '(s, r) := refresh hk (fun _ : nat => ["customer"]) 14 "r2" None None 50 12 "r3" "csrf"
                   (fresh_session d_sample) in
  r = Ok (mkTokenResponse (issue_access_token (u_id u_alice) ["customer"] (u_token_version u_alice))
            "r3" "csrf") /\
  committed s = mkDb (users d_sample)
    (map (fun x => if Nat.eqb (rt_id x) (rt_id rt_current) then rt_update_model x (mark_as_replaced rt_current 12) else x)
       (refresh_tokens d_sample) ++ [new_row]) /\
  In (mark_as_replaced rt_current 12) (refresh_tokens (committed s)) /\
  In new_row (refresh_tokens (committed s)) /\
  rt_family_id new_row = rt_family_id rt_current /\
  "r3" <> "r2".
Proof.
  apply (refresh_active_rotates hk (fun _ : nat => ["customer"]) 14
           d_sample "r2" None None 50 12 "r3" "csrf" rt_current u_alice);
    [reflexivity | reflexivity | reflexivity | reflexivity | reflexivity | reflexivity |].
  intros r Hr. simpl in Hr. repeat destruct Hr as [<-|Hr]; try contradiction;
    split; vm_compute; discriminate.
Defined.
(** *** Where each use case leaves the users table *)

Section UsersAfter.
Variable hash_token : string -> string.
Variable hash_password : string -> string.
Variable verify_password : string -> string -> bool.
Variable get_user_roles : nat -> list string.
Variable refresh_token_ttl_days : Z.
Variable verify_access_token : string -> JwtError + Claims.
Variable parse_uuid : string -> option nat.

Lemma login_users d e p ip ua now i f r c :
  users (committed (fst (login hash_token verify_password get_user_roles refresh_token_ttl_days
                           e p ip ua now i f r c (fresh_session d)))) = users d.
Proof.
  unfold login. destruct (email_normalize e); unfold_m2; [|done].
  repeat (case_match; simplify_eq/=); done.
Qed.

Lemma logout_users d r now :
  users (committed (fst (logout hash_token r now (fresh_session d)))) = users d.
Proof. unfold logout. unfold_m2. repeat (case_match; simplify_eq/=); done. Qed.

Lemma authenticate_users d a :
  users (committed (fst (get_current_principal verify_access_token parse_uuid a (fresh_session d)))) = users d.
Proof.
  unfold get_current_principal. repeat (case_match; simplify_eq/=); unfold_m2; repeat (case_match; simplify_eq/=); done.
Qed.

Lemma register_users d e p i now :
  users (committed (fst (register hash_password e p i now (fresh_session d)))) = users d \/
  exists x, users (committed (fst (register hash_password e p i now (fresh_session d)))) = users d ++ [x].
Proof.
  unfold register. repeat (case_match; simplify_eq/=); unfold_m2; repeat (case_match; simplify_eq/=); eauto.
Qed.

Lemma logout_all_users d uid now :
  users (committed (fst (logout_all uid now (fresh_session d)))) = users d \/
  exists u, find (fun x => Nat.eqb (u_id x) uid) (users d) = Some u /\
    users (committed (fst (logout_all uid now (fresh_session d))))
    = UserRepo.update_rows (with_token_version_incremented u now) (users d).
Proof.
  unfold logout_all. unfold_m2. repeat (case_match; simplify_eq/=); eauto.
Qed.

Lemma change_password_users d uid o n now :
  users (committed (fst (change_password hash_password verify_password uid o n now (fresh_session d)))) = users d \/
  exists u, find (fun x => Nat.eqb (u_id x) uid) (users d) = Some u /\
    users (committed (fst (change_password hash_password verify_password uid o n now (fresh_session d))))
    = UserRepo.update_rows (with_new_password u (hash_password n) now) (users d).
Proof.
  unfold change_password. repeat (case_match; simplify_eq/=); unfold_m2;
    repeat (case_match; simplify_eq/=); eauto.
Qed.

Lemma refresh_users d raw ip ua now i nr c :
  users (committed (fst (refresh hash_token get_user_roles refresh_token_ttl_days
                           raw ip ua now i nr c (fresh_session d)))) = users d \/
  exists old u,
    find (fun t => String.eqb (rt_token_hash t) (hash_token raw)) (refresh_tokens d) = Some old /\
    negb (is_expired old now) && negb (is_revoked old) && is_replaced old = true /\
    find (fun x => Nat.eqb (u_id x) (rt_user_id old)) (users d) = Some u /\
    users (committed (fst (refresh hash_token get_user_roles refresh_token_ttl_days
                             raw ip ua now i nr c (fresh_session d))))
    = UserRepo.update_rows (with_token_version_incremented u now) (users d).
Proof.
  unfold refresh. unfold_m2. repeat (case_match; simplify_eq/=); eauto 10.
  right. exists r, u. by rewrite H1, H2, H3.
Qed.
End UsersAfter.

(** *** The token_version invariant *)

Section TokenVersion.
Variable hash_token : string -> string.
Variable hash_password : string -> string.
Variable verify_password : string -> string -> bool.
Variable get_user_roles : nat -> list string.
Variable refresh_token_ttl_days : Z.
Variable verify_access_token : string -> JwtError + Claims.
Variable parse_uuid : string -> option nat.

(** Claim C4: for every operation of the core and every user present
    before it, the user is still present afterwards, its [token_version]
    has not decreased, and if it changed then the operation is a password
    change, a logout-all, or a refresh taking the reuse-detection path
    ([token_version_may_change]). *)
Theorem token_version_monotone_and_gated (op : Op) (d : Db) (uid : nat) (u : User) :
  find (fun x => Nat.eqb (u_id x) uid) (users d) = Some u ->
  exists u',
    find (fun x => Nat.eqb (u_id x) uid)
      (users (run_op hash_token hash_password verify_password get_user_roles refresh_token_ttl_days
                verify_access_token parse_uuid op d)) = Some u' /\
    u_token_version u <= u_token_version u' /\
    (u_token_version u' <> u_token_version u -> token_version_may_change hash_token op d = true).
Proof.
  intros Hu. unfold run_op.
  assert (Hsame : forall d', users d' = users d -> exists u',
    find (fun x => Nat.eqb (u_id x) uid) (users d') = Some u' /\
    u_token_version u <= u_token_version u' /\
    (u_token_version u' <> u_token_version u -> token_version_may_change hash_token op d = true)).
  { intros d' ->. exists u. split; [done|]. split; [lia|done]. }
  assert (Hbump : forall v u0, u_id v = u_id u0 ->
    find (fun x => Nat.eqb (u_id x) (u_id u0)) (users d) = Some u0 ->
    u_token_version v = u_token_version u0 + 1 ->
    token_version_may_change hash_token op d = true ->
    exists u', find (fun x => Nat.eqb (u_id x) uid) (UserRepo.update_rows v (users d)) = Some u' /\
    u_token_version u <= u_token_version u' /\
    (u_token_version u' <> u_token_version u -> token_version_may_change hash_token op d = true)).
  { intros v u0 Hid Hu0 Hv Hop.
    destruct (update_rows_bump v u0 (users d) uid u Hid Hu0 Hv Hu) as (u' & H1 & H2 & _).
    exists u'. auto. }
  assert (Hfind_id : forall u0 k, find (fun x => Nat.eqb (u_id x) k) (users d) = Some u0 ->
    find (fun x => Nat.eqb (u_id x) (u_id u0)) (users d) = Some u0).
  { intros u0 k Hk. pose proof (find_some _ _ Hk) as [_ Hid]. apply Nat.eqb_eq in Hid. by rewrite Hid. }
  destruct op as [e p i now|e p ip ua now i f r c|raw ip ua now i nr c|r now|user_id now|user_id o n now|a];
    cbn [op_m]; rewrite ?bind_unit_state.
  - destruct (register_users hash_password d e p i now) as [E|[x E]]; rewrite E; [by apply Hsame|].
    exists u. split; [by apply find_app_some|]. split; [lia|done].
  - by apply Hsame, login_users.
  - destruct (refresh_users hash_token get_user_roles refresh_token_ttl_days d raw ip ua now i nr c)
      as [E|(old & u0 & Hf & Hc & Hu0 & E)]; [by apply Hsame|].
    rewrite E. apply (Hbump _ u0); [done|by eapply Hfind_id|done|].
    cbn [token_version_may_change]. by rewrite Hf.
  - by apply Hsame, logout_users.
  - destruct (logout_all_users d user_id now) as [E|(u0 & Hu0 & E)]; [by apply Hsame|].
    rewrite E. apply (Hbump _ u0); [done|by eapply Hfind_id|done|done].
  - destruct (change_password_users hash_password verify_password d user_id o n now)
      as [E|(u0 & Hu0 & E)]; [by apply Hsame|].
    rewrite E. apply (Hbump _ u0); [done|by eapply Hfind_id|done|done].
  - by apply Hsame, authenticate_users.
Qed.
End TokenVersion.

Lemma token_version_monotone_and_gated_witness :
  exists u',
    find (fun x => Nat.eqb (u_id x) 1)
      (users (run_op hk (fun p => ("pw:" ++ p)%string) pw_verify (fun _ => ["customer"]) 14
                (fun _ => inl InvalidTokenError) (fun _ => None) (OpLogoutAll 1 60) d_sample)) = Some u' /\
    u_token_version u_alice <= u_token_version u' /\
    (u_token_version u' <> u_token_version u_alice ->
     token_version_may_change hk (OpLogoutAll 1 60) d_sample = true).
Proof.
  apply (token_version_monotone_and_gated hk (fun p => ("pw:" ++ p)%string) pw_verify
           (fun _ => ["customer"]) 14 (fun _ => inl InvalidTokenError) (fun _ => None)
           (OpLogoutAll 1 60) d_sample 1 u_alice).
  reflexivity.
Defined.

(** *** Per-request principal check *)

Section PrincipalProofs.
Variable verify_access_token : string -> JwtError + Claims.
Variable parse_uuid : string -> option nat.

Lemma principal_version_mismatch (d : Db) (header : string) (claims : Claims) (sub : string) (u : User) :
  String.prefix "Bearer " header = true ->
  verify_access_token (str_replace header "Bearer " "") = inr claims ->
  cl_sub claims = Some sub ->
  parse_uuid sub = Some (u_id u) ->
  find (fun x => Nat.eqb (u_id x) (u_id u)) (users d) = Some u ->
  u_token_version u <> default 0 (cl_ver claims) ->
  exists detail,
    snd (get_current_principal verify_access_token parse_uuid (Some header) (fresh_session d))
    = Err (HTTPUnauthorized detail).
Proof.
  intros Hpre Hver Hsub Hparse Hu Hmis.
  unfold get_current_principal. rewrite Hpre. simpl. rewrite Hver, Hsub, Hparse.
  unfold_m2. rewrite Hu. simpl.
  destruct (u_is_active u); simpl; [|eexists; done].
  apply Z.eqb_neq in Hmis. rewrite Hmis. simpl. eexists; done.
Qed.

End PrincipalProofs.

Lemma change_password_bumps (hash_password : string -> string) (verify_password : string -> string -> bool)
    (d : Db) (uid : nat) (old_pw new_pw : string) (now : Z) (u : User) :
  password_validate new_pw = Ok tt ->
  find (fun x => Nat.eqb (u_id x) uid) (users d) = Some u ->
  verify_password old_pw (u_password_hash u) = true ->
  find (fun x => Nat.eqb (u_id x) uid)
    (users (committed (fst (change_password hash_password verify_password uid old_pw new_pw now (fresh_session d)))))
  = Some (user_update_model u (with_new_password u (hash_password new_pw) now)).
Proof.
  intros Hpol Hu Hv.
  pose proof (find_some _ _ Hu) as [Hin Hid]. apply Nat.eqb_eq in Hid.
  assert (E4 : existsb (fun r => Nat.eqb (u_id r) (u_id u)) (users d) = true).
  { apply existsb_exists. exists u. split; [done|]. apply Nat.eqb_refl. }
  unfold change_password. rewrite Hpol. unfold_m2. rewrite Hu; simpl. rewrite Hv; simpl.
  rewrite E4; simpl. apply find_update_rows; [done|done].
Qed.

Lemma logout_all_bumps (d : Db) (uid : nat) (now : Z) (u : User) :
  find (fun x => Nat.eqb (u_id x) uid) (users d) = Some u ->
  find (fun x => Nat.eqb (u_id x) uid)
    (users (committed (fst (logout_all uid now (fresh_session d)))))
  = Some (user_update_model u (with_token_version_incremented u now)).
Proof.
  intros Hu.
  pose proof (find_some _ _ Hu) as [Hin Hid]. apply Nat.eqb_eq in Hid.
  assert (E4 : existsb (fun r => Nat.eqb (u_id r) (u_id u)) (users d) = true).
  { apply existsb_exists. exists u. split; [done|]. apply Nat.eqb_refl. }
  unfold logout_all. unfold_m2. rewrite Hu; simpl.
  rewrite E4; simpl. apply find_update_rows; [done|done].
Qed.

Lemma refresh_reuse_state (hash_token : string -> string) (get_user_roles : nat -> list string) (ttl : Z)
    (d : Db) (raw : string) (ip ua : option string)
    (now : Z) (new_id : nat) (new_raw csrf : string) (old : RefreshToken) (u : User) :
  find (fun t => String.eqb (rt_token_hash t) (hash_token raw)) (refresh_tokens d) = Some old ->
  now < rt_expires_at old ->
  rt_revoked_at old = None ->
  rt_replaced_by_token_id old <> None ->
  find (fun x => Nat.eqb (u_id x) (rt_user_id old)) (users d) = Some u ->
  let '(s, r) := refresh hash_token get_user_roles ttl raw ip ua now new_id new_raw csrf (fresh_session d) in
  r = Err RefreshTokenReuseDetectedError /\
  committed s = mkDb (UserRepo.update_rows (with_token_version_incremented u now) (users d))
                     (RefreshTokenRepo.revoke_family_rows (rt_family_id old) now (refresh_tokens d)).
Proof.
  intros Hfind Hexp Hrev Hrep Hu.
  assert (E1 : is_expired old now = false) by (unfold is_expired; apply Z.leb_gt; lia).
  assert (E2 : is_revoked old = false) by (unfold is_revoked; by rewrite Hrev).
  assert (E3 : is_replaced old = true)
    by (unfold is_replaced; by destruct (rt_replaced_by_token_id old)).
  pose proof (find_some _ _ Hu) as [Hin Hid]. apply Nat.eqb_eq in Hid.
  assert (E4 : existsb (fun r => Nat.eqb (u_id r) (u_id u)) (users d) = true).
  { apply existsb_exists. exists u. split; [done|]. apply Nat.eqb_refl. }
  unfold refresh; unfold_m2.
  rewrite Hfind, E1, E2, E3; simpl.
  rewrite Hu. simpl. rewrite E4. simpl. done.
Qed.

Section GateProofs.
Variable hash_token : string -> string.
Variable hash_password : string -> string.
Variable verify_password : string -> string -> bool.
Variable get_user_roles : nat -> list string.
Variable refresh_token_ttl_days : Z.
Variable verify_access_token : string -> JwtError + Claims.
Variable parse_uuid : string -> option nat.

(** Claim C5: the per-request check fails as unauthorized (HTTP 401)
    whenever the token passes signature, issuer, audience and expiry
    verification but its version claim differs from the user's current
    [token_version] (an absent claim reads as 0); in particular a token
    carrying the version current before a successful password change, a
    logout-all, or a reuse remediation of one of the user's refresh tokens
    fails right after it. *)
Theorem access_token_version_gate :
  (forall (d : Db) (header : string) (claims : Claims) (sub : string) (uid : nat) (u : User),
     String.prefix "Bearer " header = true ->
     verify_access_token (str_replace header "Bearer " "") = inr claims ->
     cl_sub claims = Some sub -> parse_uuid sub = Some uid ->
     find (fun x => Nat.eqb (u_id x) uid) (users d) = Some u ->
     u_token_version u <> default 0 (cl_ver claims) ->
     exists detail,
       snd (get_current_principal verify_access_token parse_uuid (Some header) (fresh_session d))
       = Err (HTTPUnauthorized detail)) /\
  (forall (d : Db) (header : string) (claims : Claims) (sub : string) (u : User)
          (old_pw new_pw : string) (now : Z),
     String.prefix "Bearer " header = true ->
     verify_access_token (str_replace header "Bearer " "") = inr claims ->
     cl_sub claims = Some sub -> parse_uuid sub = Some (u_id u) ->
     find (fun x => Nat.eqb (u_id x) (u_id u)) (users d) = Some u ->
     cl_ver claims = Some (u_token_version u) ->
     password_validate new_pw = Ok tt ->
     verify_password old_pw (u_password_hash u) = true ->
     let d' := committed (fst (change_password hash_password verify_password (u_id u) old_pw new_pw now
                                 (fresh_session d))) in
     exists detail,
       snd (get_current_principal verify_access_token parse_uuid (Some header) (fresh_session d'))
       = Err (HTTPUnauthorized detail)) /\
  (forall (d : Db) (header : string) (claims : Claims) (sub : string) (u : User) (now : Z),
     String.prefix "Bearer " header = true ->
     verify_access_token (str_replace header "Bearer " "") = inr claims ->
     cl_sub claims = Some sub -> parse_uuid sub = Some (u_id u) ->
     find (fun x => Nat.eqb (u_id x) (u_id u)) (users d) = Some u ->
     cl_ver claims = Some (u_token_version u) ->
     let d' := committed (fst (logout_all (u_id u) now (fresh_session d))) in
     exists detail,
       snd (get_current_principal verify_access_token parse_uuid (Some header) (fresh_session d'))
       = Err (HTTPUnauthorized detail)) /\
  (forall (d : Db) (header : string) (claims : Claims) (sub : string) (u : User)
          (raw : string) (ip ua : option string) (now : Z) (new_id : nat) (new_raw csrf : string)
          (old : RefreshToken),
     String.prefix "Bearer " header = true ->
     verify_access_token (str_replace header "Bearer " "") = inr claims ->
     cl_sub claims = Some sub -> parse_uuid sub = Some (u_id u) ->
     find (fun x => Nat.eqb (u_id x) (u_id u)) (users d) = Some u ->
     cl_ver claims = Some (u_token_version u) ->
     find (fun t => String.eqb (rt_token_hash t) (hash_token raw)) (refresh_tokens d) = Some old ->
     now < rt_expires_at old -> rt_revoked_at old = None -> rt_replaced_by_token_id old <> None ->
     rt_user_id old = u_id u ->
     let d' := committed (fst (refresh hash_token get_user_roles refresh_token_ttl_days
                                 raw ip ua now new_id new_raw csrf (fresh_session d))) in
     exists detail,
       snd (get_current_principal verify_access_token parse_uuid (Some header) (fresh_session d'))
       = Err (HTTPUnauthorized detail)).
Proof.
  split; [|split; [|split]].
  - intros d header claims sub uid u Hpre Hver Hsub Hparse Hu Hmis.
    pose proof (find_some _ _ Hu) as [_ Hid]. apply Nat.eqb_eq in Hid. subst uid.
    by apply (principal_version_mismatch _ _ _ _ _ _ _ Hpre Hver Hsub Hparse Hu).
  - intros d header claims sub u old_pw new_pw now Hpre Hver Hsub Hparse Hu Hv Hpol Hok d'.
    apply (principal_version_mismatch _ _ _ _ _ _
             (user_update_model u (with_new_password u (hash_password new_pw) now))
             Hpre Hver Hsub); [done| |].
    + by apply change_password_bumps.
    + rewrite Hv. simpl. lia.
  - intros d header claims sub u now Hpre Hver Hsub Hparse Hu Hv d'.
    apply (principal_version_mismatch _ _ _ _ _ _
             (user_update_model u (with_token_version_incremented u now))
             Hpre Hver Hsub); [done| |].
    + by apply logout_all_bumps.
    + rewrite Hv. simpl. lia.
  - intros d header claims sub u raw ip ua now new_id new_raw csrf old
      Hpre Hver Hsub Hparse Hu Hv Hfind Hexp Hrev Hrep Howner d'.
    rewrite <- Howner in Hu.
    pose proof (refresh_reuse_state hash_token get_user_roles refresh_token_ttl_days
                  d raw ip ua now new_id new_raw csrf old u Hfind Hexp Hrev Hrep Hu) as Hs.
    subst d'.
    destruct (refresh hash_token get_user_roles refresh_token_ttl_days raw ip ua now new_id new_raw csrf
                (fresh_session d)) as [s r]. destruct Hs as [_ Hc]. simpl. rewrite Hc.
    apply (principal_version_mismatch _ _ _ _ _ _
             (user_update_model u (with_token_version_incremented u now))
             Hpre Hver Hsub); [done| |].
    + simpl. rewrite <- Howner. apply find_update_rows; [simpl; done|done].
    + rewrite Hv. simpl. lia.
Qed.
End GateProofs.

(** *** Logout *)

(** Claim C6: logging out twice with the same refresh token is not a no-op
    the second time.  [revoke_by_token_hash] updates the row without the
    [revoked_at IS NULL] filter its siblings [revoke_family] and
    [revoke_all_for_user] have, so the second call re-stamps [revoked_at]
    with the later instant and the committed store changes. *)
Lemma logout_second_call_restamps_revoked_at :
  let d1 := committed (fst (logout hk "r1" 10 (fresh_session d_logout))) in
  let d2 := committed (fst (logout hk "r1" 20 (fresh_session d1))) in
  snd (logout hk "r1" 20 (fresh_session d1)) = Ok tt /\
  map rt_revoked_at (refresh_tokens d1) = [Some 10] /\
  map rt_revoked_at (refresh_tokens d2) = [Some 20] /\
  d2 <> d1.
Proof. vm_compute. split; [done|split; [done|split; [done|]]]. congruence. Qed.

(** *** Login *)

Section LoginProofs.
Variable hash_token : string -> string.
Variable verify_password : string -> string -> bool.
Variable get_user_roles : nat -> list string.
Variable refresh_token_ttl_days : Z.

(** Claim C7: login with an email no user holds and login with a known
    email but a wrong password fail with the same error, InvalidCredentials
    with the message "Invalid email or password". *)
Theorem login_unknown_email_same_error_as_wrong_password
    (d1 d2 : Db) (email em password : string) (ip ua : option string) (now : Z)
    (new_id family_id : nat) (raw csrf : string) (u : User) :
  email_normalize email = Ok em ->
  find (fun x => String.eqb (u_email x) em) (users d1) = None ->
  find (fun x => String.eqb (u_email x) em) (users d2) = Some u ->
  verify_password password (u_password_hash u) = false ->
  snd (login hash_token verify_password get_user_roles refresh_token_ttl_days
         email password ip ua now new_id family_id raw csrf (fresh_session d1))
  = Err (InvalidCredentialsError "Invalid email or password") /\
  snd (login hash_token verify_password get_user_roles refresh_token_ttl_days
         email password ip ua now new_id family_id raw csrf (fresh_session d2))
  = Err (InvalidCredentialsError "Invalid email or password").
Proof.
  intros Hn H1 H2 Hv. unfold login. rewrite Hn. unfold_m2. split.
  - by rewrite H1.
  - rewrite H2; simpl. by rewrite Hv.
Qed.
End LoginProofs.

Lemma login_unknown_email_same_error_as_wrong_password_witness :
  snd (login hk pw_verify (fun _ => ["customer"]) 14
         "Alice@Example.com" "wrong-pass1" None None 50 20 200 "r9" "csrf" (fresh_session (mkDb [] [])))
  = Err (InvalidCredentialsError "Invalid email or password") /\
  snd (login hk pw_verify (fun _ => ["customer"]) 14
         "Alice@Example.com" "wrong-pass1" None None 50 20 200 "r9" "csrf" (fresh_session d_sample))
  = Err (InvalidCredentialsError "Invalid email or password").
Proof.
  apply (login_unknown_email_same_error_as_wrong_password hk pw_verify (fun _ => ["customer"]) 14
           (mkDb [] []) d_sample "Alice@Example.com" "alice@example.com" "wrong-pass1"
           None None 50 20 200 "r9" "csrf" u_alice);
    vm_compute; reflexivity.
Defined.

(** *** Permission check *)

(** Claim C10: a permission check with an empty role list fails with
    InsufficientPermissions without reading or writing the cache and
    without querying the RBAC store. *)
Theorem check_permission_empty_roles
    (get_permissions_for_roles : list string -> list Permission) (cache_ttl_seconds : Z)
    (user_id : nat) (required_permission : string) (c : Cache) (t_get t_set : Z) :
  resolve_permissions get_permissions_for_roles cache_ttl_seconds [] c t_get t_set = ([], c, []) /\
  check_permission get_permissions_for_roles cache_ttl_seconds user_id [] required_permission c t_get t_set
  = (Err InsufficientPermissionsError, c, []).
Proof. split; reflexivity. Qed.

(** The key [permissions:r1:...:rn] of a role list depends only on its
    multiset of roles. *)
Lemma cache_key_perm (roles1 roles2 : list string) :
  roles1 ≡ₚ roles2 -> cache_key roles1 = cache_key roles2.
Proof.
  intros Hp. unfold cache_key. do 2 f_equal.
  apply (Sorted_unique String.le); try apply Sorted_merge_sort; try apply _.
  by rewrite !merge_sort_Permutation.
Qed.

Section RbacProofs.
Variable cache_ttl_seconds : Z.

Lemma resolve_permissions_caches (q : list string -> list Permission) roles c t_get t_set :
  roles <> [] ->
  exists e, (resolve_permissions q cache_ttl_seconds roles c t_get t_set).1.2 !! cache_key roles
            = Some ((resolve_permissions q cache_ttl_seconds roles c t_get t_set).1.1, e).
Proof.
  intros Hne. destruct roles as [|r rs]; [done|].
  unfold resolve_permissions, cache_get, cache_set.
  destruct (c !! cache_key (r :: rs)) as [[v e]|] eqn:E.
  - destruct (e <=? t_get) eqn:Ee; simpl.
    + eexists. unfold Cache in *; by rewrite lookup_insert_eq.
    + by exists e.
  - eexists. simpl. unfold Cache in *; by rewrite lookup_insert_eq.
Qed.

Lemma resolve_permissions_hit (q : list string -> list Permission) roles c t_get t_set v e :
  roles <> [] -> c !! cache_key roles = Some (v, e) -> t_get < e ->
  resolve_permissions q cache_ttl_seconds roles c t_get t_set = (v, c, [CacheGet (cache_key roles)]).
Proof.
  intros Hne Hc Ht. destruct roles as [|r rs]; [done|].
  unfold resolve_permissions, cache_get. rewrite Hc.
  by replace (e <=? t_get) with false by lia.
Qed.
End RbacProofs.

(** Claim C8 (amended): for two nonempty role lists that are permutations
    of each other, the first check leaves the resolved permissions in the
    cache under the sorted key with some expiry; a second check made before
    that expiry returns those permissions, leaves the cache as it is, reads
    only the cache (no RBAC query, even if the role-to-permission mapping
    has changed in the store), and gives the same outcome as the first. *)
Theorem check_permission_same_role_set_cached
    (q1 q2 : list string -> list Permission) (cache_ttl_seconds : Z)
    (user_id : nat) (required_permission : string) (roles1 roles2 : list string)
    (c : Cache) (t_get1 t_set1 t_get2 t_set2 : Z) :
  roles1 <> [] -> roles1 ≡ₚ roles2 ->
  let '(r1, c1, _) := resolve_permissions q1 cache_ttl_seconds roles1 c t_get1 t_set1 in
  exists expires_at,
    c1 !! cache_key roles2 = Some (r1, expires_at) /\
    (t_get2 < expires_at ->
     resolve_permissions q2 cache_ttl_seconds roles2 c1 t_get2 t_set2
       = (r1, c1, [CacheGet (cache_key roles2)]) /\
     (check_permission q2 cache_ttl_seconds user_id roles2 required_permission c1 t_get2 t_set2).1.1
       = (check_permission q1 cache_ttl_seconds user_id roles1 required_permission c t_get1 t_set1).1.1).
Proof.
  intros Hne Hp.
  assert (Hne2 : roles2 <> []).
  { intros ->. apply Hne. by apply Permutation_nil_r. }
  destruct (resolve_permissions_caches cache_ttl_seconds q1 roles1 c t_get1 t_set1 Hne) as [e He].
  unfold check_permission.
  destruct (resolve_permissions q1 cache_ttl_seconds roles1 c t_get1 t_set1) as [[r1 c1] eff1].
  simpl in He. rewrite (cache_key_perm _ _ Hp) in He.
  exists e. split; [done|]. intros Ht.
  rewrite (resolve_permissions_hit cache_ttl_seconds q2 roles2 c1 t_get2 t_set2 r1 e); auto.
Qed.

Lemma check_permission_same_role_set_cached_witness :
  ["viewer"; "admin"] <> [] /\ ["viewer"; "admin"] ≡ₚ ["admin"; "viewer"] /\
  let '(r1, c1, _) := resolve_permissions (fun _ => [mkPermission 1 "products:write"]) 300
                         ["viewer"; "admin"] ∅ 0 0 in
  exists expires_at,
    c1 !! cache_key ["admin"; "viewer"] = Some (r1, expires_at) /\
    (1 < expires_at ->
     resolve_permissions (fun _ => []) 300 ["admin"; "viewer"] c1 1 1
       = (r1, c1, [CacheGet (cache_key ["admin"; "viewer"])]) /\
     (check_permission (fun _ => []) 300 7 ["admin"; "viewer"] "products:write" c1 1 1).1.1
       = (check_permission (fun _ => [mkPermission 1 "products:write"]) 300 7 ["viewer"; "admin"]
            "products:write" ∅ 0 0).1.1).
Proof.
  assert (Hp : ["viewer"; "admin"] ≡ₚ ["admin"; "viewer"]).
  { apply (bool_decide_unpack _). vm_compute. reflexivity. }
  split; [discriminate|]. split; [exact Hp|].
  apply (check_permission_same_role_set_cached _ _ 300 7 "products:write"); [discriminate|exact Hp].
Defined.

(** Claim C8 (counterexample): the key sorts the role list but keeps its
    duplicates, so [["admin"]] and [["admin"; "admin"]], the same role set,
    have different keys; once the mapping has changed in the store, the
    second check queries it and its outcome differs from the first. *)
Lemma check_permission_duplicate_role_list_misses_cache :
  ["admin"] ⊆ ["admin"; "admin"] /\ ["admin"; "admin"] ⊆ ["admin"] /\
  cache_key ["admin"] <> cache_key ["admin"; "admin"] /\
  let q1 := fun _ : list string => [mkPermission 1 "products:write"] in
  let q2 := fun _ : list string => @nil Permission in
  let '(o1, c1, _) := check_permission q1 300 7 ["admin"] "products:write" ∅ 0 0 in
  let '(o2, _, eff2) := check_permission q2 300 7 ["admin"; "admin"] "products:write" c1 1 1 in
  o1 = Ok tt /\ o2 = Err InsufficientPermissionsError /\ In (RbacQuery ["admin"; "admin"]) eff2.
Proof.
  split; [set_solver|]. split; [set_solver|]. split; [vm_compute; discriminate|].
  vm_compute. split; [done|]. split; [done|]. right. left. done.
Qed.

(** *** Registration and the email value object *)

(** Lowercasing keeps every character class the email pattern uses. *)
Lemma lower_ascii_classes (c : ascii) :
  is_alpha (lower_ascii c) = is_alpha c /\ is_digit (lower_ascii c) = is_digit c /\
  in_chars "._%+-" (lower_ascii c) = in_chars "._%+-" c /\
  in_chars ".-" (lower_ascii c) = in_chars ".-" c /\
  Ascii.eqb "@" (lower_ascii c) = Ascii.eqb "@" c /\
  Ascii.eqb "." (lower_ascii c) = Ascii.eqb "." c /\
  Ascii.eqb (lower_ascii c) "010" = Ascii.eqb c "010" /\
  is_py_space (lower_ascii c) = is_py_space c.
Proof.
  destruct c as [[] [] [] [] [] [] [] []]; vm_compute; repeat split.
Qed.

Lemma email_pattern_lower_class (it : Item) (c : ascii) :
  In it email_pattern -> item_class it (lower_ascii c) = item_class it c.
Proof.
  destruct (lower_ascii_classes c) as (H1 & H2 & H3 & H4 & H5 & H6 & _).
  intros Hin. repeat destruct Hin as [<-|Hin]; try contradiction.
  all: cbn [item_class]; first [congruence | by rewrite H1, H2, H3 | by rewrite H1, H2, H4].
Qed.

Lemma forallb_map_inv (p : ascii -> bool) (f : ascii -> ascii) (l : list ascii) :
  (forall c, p (f c) = p c) -> forallb p (map f l) = forallb p l.
Proof. intros H. induction l as [|a l IH]; simpl; [done|]. by rewrite H, IH. Qed.

Lemma existsb_ext_in {A} (p q : A -> bool) (l : list A) :
  (forall x, p x = q x) -> existsb p l = existsb q l.
Proof. intros H. induction l as [|a l IH]; simpl; [done|]. by rewrite H, IH. Qed.

Lemma re_match_map (f : ascii -> ascii) (items : list Item) (s : list ascii) :
  (forall it c, In it items -> item_class it (f c) = item_class it c) ->
  (forall c, Ascii.eqb (f c) "010" = Ascii.eqb c "010") ->
  re_match items (map f s) = re_match items s.
Proof.
  revert s. induction items as [|it rest IH]; intros s Hc Hn.
  - destruct s as [|a [|b s]]; simpl; auto.
  - simpl. rewrite length_map. apply existsb_ext_in. intros k.
    rewrite firstn_map, skipn_map, forallb_map_inv by (intros; apply Hc; left; done).
    rewrite IH; auto. intros it' c Hin. apply Hc. by right.
Qed.

Lemma str_lower_list (s : string) :
  list_ascii_of_string (str_lower s) = map lower_ascii (list_ascii_of_string s).
Proof. unfold str_lower. apply list_ascii_of_string_of_list_ascii. Qed.

Lemma string_length_list (s : string) : String.length s = length (list_ascii_of_string s).
Proof. induction s as [|a s IH]; simpl; congruence. Qed.

Lemma str_lower_empty (s : string) : String.eqb (str_lower s) "" = String.eqb s "".
Proof. destruct s; reflexivity. Qed.

Lemma email_check_lower (v : string) :
  email_check v = Ok v -> email_check (str_lower v) = Ok (str_lower v).
Proof.
  unfold email_check. rewrite str_lower_list, str_lower_empty.
  rewrite forallb_map_inv by (intros c; apply lower_ascii_classes).
  rewrite re_match_map by (auto using email_pattern_lower_class; intros c; apply lower_ascii_classes).
  rewrite (string_length_list (str_lower v)), str_lower_list, length_map, <- string_length_list.
  destruct (_ || _); [done|]. destruct (negb _); [done|]. by destruct (Nat.ltb _ _).
Qed.

Lemma email_normalize_lower (v : string) :
  email_check v = Ok v -> email_normalize v = Ok (str_lower v).
Proof. intros H. unfold email_normalize. rewrite H. by apply email_check_lower. Qed.



Lemma re_match_chars (items : list Item) (s : list ascii) :
  re_match items s = true ->
  forall c, In c s -> Exists (fun it => item_class it c = true) items \/ c = "010"%char.
Proof.
  revert s. induction items as [|it rest IH]; intros s H c Hin.
  - destruct s as [|a [|b s]]; simpl in H; [done| |done].
    right. destruct Hin as [<-|[]]. by apply Ascii.eqb_eq.
  - simpl in H. apply existsb_exists in H as [k [_ Hk]].
    apply andb_true_iff in Hk as [Hf Hr].
    rewrite <- (firstn_skipn k s) in Hin. apply in_app_or in Hin as [Hin|Hin].
    + left. constructor. by apply (proj1 (forallb_forall _ _) Hf).
    + destruct (IH _ Hr c Hin) as [Hex|Heq]; [left; by constructor 2|by right].
Qed.

Lemma email_pattern_rejects_space (cs : list ascii) :
  In " "%char cs -> re_match email_pattern cs = false.
Proof.
  intros Hin. destruct (re_match email_pattern cs) eqn:H; [exfalso|done].
  destruct (re_match_chars _ _ H _ Hin) as [Hex|Heq]; [|discriminate].
  apply List.Exists_exists in Hex as [it [Hit Hc]].
  repeat destruct Hit as [<-|Hit]; try contradiction; vm_compute in Hc; discriminate.
Qed.

Lemma password_validate_value_error (password : string) (e : Error) :
  password_validate password = Err e -> exists msg, e = ValueError msg.
Proof.
  unfold password_validate. intros H. cbv zeta in H.
  repeat match type of H with
  | context [if ?b then _ else _] => destruct b
  end; first [discriminate | injection H as <-; eauto].
Qed.

Lemma email_check_space (email : string) :
  In " "%char (list_ascii_of_string email) -> exists msg, email_check email = Err (ValueError msg).
Proof.
  intros Hin. unfold email_check. rewrite email_pattern_rejects_space by done.
  destruct (_ || _); eauto.
Qed.


(** Claim C9 (amended): registration lowercases the email but does not
    trim it.  An email containing a space is rejected with a ValueError and
    nothing is written.  For an email the value object accepts as it is, a
    valid password and a fresh user id: when no user holds the lowercased
    email, the user is stored with the lowercased email and the call returns
    it; when one does, the call fails with UserAlreadyExists and nothing is
    written. *)
Theorem register_lowercases_without_trimming (hash_password : string -> string)
    (email password : string) (new_id : nat) (now : Z) (d : Db) :
  (In " "%char (list_ascii_of_string email) ->
   exists msg,
     snd (register hash_password email password new_id now (fresh_session d)) = Err (ValueError msg) /\
     committed (fst (register hash_password email password new_id now (fresh_session d))) = d) /\
  (email_check email = Ok email -> password_validate password = Ok tt ->
   (forall u, In u (users d) -> u_id u <> new_id) ->
   let em := str_lower email in
   let '(s, r) := register hash_password email password new_id now (fresh_session d) in
   match find (fun u => String.eqb (u_email u) em) (users d) with
   | None =>
     r = Ok (new_id, em) /\
     committed s = mkDb (users d ++ [mkUser new_id em (hash_password password) true false 0 now now])
                        (refresh_tokens d)
   | Some _ =>
     r = Err (UserAlreadyExistsError ("User with email " ++ em ++ " already exists")%string) /\
     committed s = d
   end).
Proof.
  split.
  - intros Hsp. unfold register.
    destruct (password_validate password) as [[]|e] eqn:Hpw.
    + destruct (email_check_space email Hsp) as [msg Hmsg].
      unfold email_normalize. rewrite Hmsg. exists msg. by unfold_m.
    + destruct (password_validate_value_error _ _ Hpw) as [msg ->]. exists msg. by unfold_m.
  - intros He Hpw Hfresh em. unfold register. rewrite Hpw, (email_normalize_lower _ He).
    fold em. unfold_m2. rewrite existsb_find.
    destruct (find (fun u => String.eqb (u_email u) em) (users d)) eqn:Hf; simpl; [done|].
    assert (Hs : existsb (fun r => Nat.eqb (u_id r) new_id || String.eqb (u_email r) em) (users d) = false).
    { apply not_true_iff_false. intros [x [Hx Hp]]%existsb_exists.
      apply orb_true_iff in Hp as [Hp|Hp].
      - apply Nat.eqb_eq in Hp. exact (Hfresh x Hx Hp).
      - rewrite (find_none _ _ Hf x Hx) in Hp. discriminate. }
    rewrite Hs. simpl. done.
Qed.

(** Claim C9 (counterexample): an email that differs from a stored one
    only by a leading space and by case is not trimmed into a conflict; it
    fails the format check. *)
Lemma register_leading_space_rejected :
  let d := mkDb [mkUser 1 "alice@example.com" "h" true false 0 0 0] [] in
  let '(s, r) := register (fun p => p) " Alice@Example.com" "passw0rd1" 2 5 (fresh_session d) in
  r = Err (ValueError "Invalid email format") /\ committed s = d.
Proof. vm_compute. split; reflexivity. Qed.

Lemma register_lowercases_without_trimming_witness :
  email_check "Alice@Example.com" = Ok "Alice@Example.com" /\
  password_validate "passw0rd1" = Ok tt /\
  let '(s, r) := register (fun p => p) "Alice@Example.com" "passw0rd1" 2 5 (fresh_session (mkDb [] [])) in
  match find (fun u => String.eqb (u_email u) (str_lower "Alice@Example.com")) [] with
  | None =>
    r = Ok (2%nat, str_lower "Alice@Example.com") /\
    committed s = mkDb ([] ++ [mkUser 2 (str_lower "Alice@Example.com") "passw0rd1" true false 0 5 5]) []
  | Some _ =>
    r = Err (UserAlreadyExistsError ("User with email " ++ str_lower "Alice@Example.com" ++ " already exists")%string) /\
    committed s = mkDb [] []
  end.
Proof.
  split; [vm_compute; reflexivity|]. split; [vm_compute; reflexivity|].
  apply (proj2 (register_lowercases_without_trimming (fun p => p) "Alice@Example.com" "passw0rd1" 2 5 (mkDb [] [])));
    [vm_compute; reflexivity | vm_compute; reflexivity | simpl; tauto].
Defined.

(** ** Properties of the rest of the code *)

(** *** The in-memory cache *)

(** [MemoryCache.set] then [MemoryCache.get] of the same key: before the
    entry's expiry the value just written is returned and the cache is left
    as [set] made it; from the expiry instant on, [get] returns nothing and
    the key is gone, the rest of the cache being as before the [set]. *)
Theorem cache_set_then_get (c : Cache) (key : string) (value : list Permission) (ttl t_set t_get : Z) :
  cache_get (cache_set c key value ttl t_set) key t_get =
  if t_set + ttl <=? t_get then (delete key c, None)
  else (cache_set c key value ttl t_set, Some value).
Proof.
  unfold cache_get, cache_set. unfold Cache in *.
  rewrite lookup_insert_eq. destruct (t_set + ttl <=? t_get); [|done].
  by rewrite delete_insert_eq.
Qed.

(** [MemoryCache.get] changes only the key it reads: that key is removed
    when its entry has expired at [now] and kept otherwise; every other key
    keeps its entry. *)
Theorem cache_get_lookup (c : Cache) (key k : string) (now : Z) :
  (cache_get c key now).1 !! k =
  if bool_decide (k = key) then
    match c !! key with
    | Some (v, expires_at) => if expires_at <=? now then None else Some (v, expires_at)
    | None => None
    end
  else c !! k.
Proof.
  unfold cache_get. unfold Cache in *.
  case_bool_decide as Hk.
  - subst k. destruct (c !! key) as [[v e]|] eqn:E; simpl; [|done].
    destruct (e <=? now); simpl; [by rewrite lookup_delete_eq|done].
  - destruct (c !! key) as [[v e]|]; simpl; [|done].
    destruct (e <=? now); simpl; [|done]. by rewrite lookup_delete_ne.
Qed.

Lemma foldl_delete_lookup {A} (L : list string) (c : gmap string A) (k : string) :
  foldl (fun acc key => delete key acc) c L !! k = if bool_decide (k ∈ L) then None else c !! k.
Proof.
  revert c. induction L as [|a L IH]; intros c; cbn [foldl].
  - case_bool_decide as H; [by apply not_elem_of_nil in H|done].
  - rewrite IH. destruct (decide (k = a)) as [->|Hne].
    + rewrite lookup_delete_eq, (bool_decide_eq_true_2 (a ∈ a :: L)) by set_solver.
      by case_bool_decide.
    + rewrite lookup_delete_ne by done.
      by rewrite (bool_decide_ext (k ∈ a :: L) (k ∈ L)) by set_solver.
Qed.

(** After [MemoryCache.delete_pattern], a key holds an entry exactly when
    it held one before, that entry had not expired at [now], and the key
    does not match [pattern]; the kept entries are unchanged. *)
Theorem delete_pattern_lookup {V} (fnmatch : string -> string -> bool)
    (c : gmap string (V * Z)) (pattern : string) (now : Z) (k : string) :
  delete_pattern fnmatch c pattern now !! k =
  match c !! k with
  | Some (v, expires_at) => if (expires_at <=? now) || fnmatch k pattern then None else Some (v, expires_at)
  | None => None
  end.
Proof.
  unfold delete_pattern. rewrite foldl_delete_lookup.
  case_bool_decide as Hin.
  - apply list_elem_of_In, in_map_iff in Hin as [[k' [v e]] [Hk Hin]]. simpl in Hk. subst k'.
    apply filter_In in Hin as [Hin Hp].
    apply list_elem_of_In, elem_of_map_to_list in Hin. rewrite Hin. by rewrite Hp.
  - destruct (c !! k) as [[v e]|] eqn:E; [|done].
    destruct ((e <=? now) || fnmatch k pattern) eqn:Hp; [|done].
    exfalso. apply Hin. apply list_elem_of_In, in_map_iff. exists (k, (v, e)). split; [done|].
    apply filter_In. split; [|done].
    apply list_elem_of_In, elem_of_map_to_list. done.
Qed.

(** *** Password policy and email value object *)

(** On ASCII passwords, [PasswordPolicy.validate] accepts exactly the
    passwords of 8 to 128 characters holding at least one digit and one
    letter, and [PasswordPolicy.is_valid] never raises: it answers [True]
    on exactly those passwords and [False] on every other ASCII password. *)
Theorem password_policy_accepts_exactly (password : string) :
  Forall (fun c => nat_of_ascii c < 128)%nat (list_ascii_of_string password) ->
  let cs := list_ascii_of_string password in
  let ok := ((8 <= String.length password <= 128)%nat /\
             existsb is_digit cs = true /\ existsb is_alpha cs = true) in
  (password_validate password = Ok tt <-> ok) /\
  (password_is_valid password = Ok true <-> ok) /\
  (password_is_valid password = Ok false <-> ~ ok).
Proof.
  intros _ cs ok. unfold password_is_valid, password_validate, ok, cs.
  destruct (String.eqb password "") eqn:E0.
  { apply String.eqb_eq in E0. subst. cbn. repeat split; try discriminate; intros; lia. }
  destruct (Nat.ltb (String.length password) 8) eqn:E1.
  { apply Nat.ltb_lt in E1. repeat split; try discriminate; intros; lia. }
  apply Nat.ltb_ge in E1.
  destruct (Nat.ltb 128 (String.length password)) eqn:E2.
  { apply Nat.ltb_lt in E2. repeat split; try discriminate; intros; lia. }
  apply Nat.ltb_ge in E2.
  destruct (existsb is_digit (list_ascii_of_string password)) eqn:E3;
  destruct (existsb is_alpha (list_ascii_of_string password)) eqn:E4; cbn;
  repeat split; intros; try done; try lia; try (exfalso; naive_solver).
Qed.

Lemma password_policy_accepts_exactly_witness :
  password_validate "passw0rd" = Ok tt /\ password_is_valid "password" = Ok false.
Proof.
  destruct (password_policy_accepts_exactly "passw0rd" ltac:(repeat constructor; vm_compute; lia))
    as [[_ Hv] _].
  destruct (password_policy_accepts_exactly "password" ltac:(repeat constructor; vm_compute; lia))
    as [_ [_ [_ Hf]]].
  split; [apply Hv|apply Hf].
  - split; [vm_compute; lia|]. split; vm_compute; reflexivity.
  - intros (_ & Hd & _). vm_compute in Hd. discriminate.
Defined.

Lemma filter_at_nil (l : list ascii) :
  (forall c, In c l -> c <> "@"%char) -> List.filter (fun c => Ascii.eqb c "@") l = [].
Proof.
  induction l as [|a l IH]; intros H; [done|]. cbn.
  destruct (Ascii.eqb_spec a "@") as [E|E]; [exfalso; by apply (H a); [left|]|].
  apply IH. intros c Hc. apply H. by right.
Qed.

Lemma item_counts_bounds (it : Item) (len k : nat) :
  In k (item_counts it len) ->
  (item_min it <= k)%nat /\ (k <= len)%nat /\
  (forall m, item_max it = Some m -> (k <= m)%nat).
Proof.
  unfold item_counts. intros Hin. apply in_seq in Hin.
  destruct (item_max it) as [m|]; repeat split; try lia; intros m' [= <-]; lia.
Qed.

Lemma re_match_cons_inv (it : Item) (rest : list Item) (s : list ascii) :
  re_match (it :: rest) s = true ->
  exists k, In k (item_counts it (length s)) /\
    forallb (item_class it) (take k s) = true /\ re_match rest (drop k s) = true.
Proof.
  simpl. intros H. apply existsb_exists in H as [k [Hk H]].
  apply andb_true_iff in H as [H1 H2]. eauto.
Qed.

(** An email the [Email] value object accepts is stored as given, is not
    empty, has at most 255 characters and holds exactly one [@]. *)
Theorem email_check_single_at (value v : string) :
  email_check value = Ok v ->
  v = value /\ value <> ""%string /\ (String.length value <= 255)%nat /\
  length (List.filter (fun c => Ascii.eqb c "@") (list_ascii_of_string value)) = 1%nat.
Proof.
  unfold email_check. set (cs := list_ascii_of_string value).
  destruct (String.eqb value "" || forallb is_py_space cs) eqn:E0; [discriminate|].
  destruct (re_match email_pattern cs) eqn:Hm; [|discriminate]. cbn [negb].
  destruct (Nat.ltb 255 (String.length value)) eqn:E2; [discriminate|].
  intros [= <-]. apply Nat.ltb_ge in E2.
  apply orb_false_iff in E0 as [E0 _].
  split; [done|]. split; [intros ->; discriminate|]. split; [done|].
  unfold email_pattern in Hm.
  apply re_match_cons_inv in Hm as [k1 [_ [Hf1 Hm]]].
  apply re_match_cons_inv in Hm as [k2 [Hk2 [Hf2 Hm]]].
  apply item_counts_bounds in Hk2 as (Hlo & Hle & Hhi). cbn in Hlo, Hhi.
  specialize (Hhi 1%nat eq_refl). assert (k2 = 1%nat) as -> by lia.
  rewrite <- (firstn_skipn k1 cs), List.filter_app.
  rewrite (filter_at_nil (take k1 cs)).
  2:{ intros c Hc Ec. subst c. rewrite forallb_forall in Hf1. specialize (Hf1 _ Hc).
      vm_compute in Hf1. discriminate. }
  destruct (drop k1 cs) as [|a s3] eqn:Hs2; [cbn in Hle; lia|].
  cbn [take forallb item_class] in Hf2. cbn [drop] in Hm. rewrite andb_true_r in Hf2. apply Ascii.eqb_eq in Hf2 as <-.
  cbn. rewrite filter_at_nil; [done|].
  intros c Hc Ec. subst c. destruct (re_match_chars _ _ Hm _ Hc) as [Hex|Heq]; [|discriminate].
  apply List.Exists_exists in Hex as [it [Hit Hc']].
  repeat destruct Hit as [<-|Hit]; try contradiction; vm_compute in Hc'; discriminate.
Qed.

Lemma lower_ascii_idem (c : ascii) : lower_ascii (lower_ascii c) = lower_ascii c.
Proof. destruct c as [[] [] [] [] [] [] [] []]; vm_compute; reflexivity. Qed.

Lemma str_lower_idem (s : string) : str_lower (str_lower s) = str_lower s.
Proof.
  unfold str_lower at 1. rewrite str_lower_list, map_map.
  rewrite (map_ext _ _ lower_ascii_idem). reflexivity.
Qed.

Lemma email_check_ok_eq (value v : string) : email_check value = Ok v -> v = value.
Proof.
  unfold email_check. destruct (_ || _); [discriminate|]. destruct (negb _); [discriminate|].
  destruct (Nat.ltb _ _); [discriminate|]. by intros [= <-].
Qed.

(** [Email.normalize] succeeds only with the lowercased input, and
    normalizing its result again succeeds with the same value. *)
Theorem email_normalize_idempotent (raw v : string) :
  email_normalize raw = Ok v -> v = str_lower raw /\ email_normalize v = Ok v.
Proof.
  unfold email_normalize at 1. destruct (email_check raw) as [w|e] eqn:H1; [|discriminate].
  apply email_check_ok_eq in H1 as ->. intros H2.
  pose proof (email_check_ok_eq _ _ H2) as ->. split; [done|].
  unfold email_normalize. rewrite H2, str_lower_idem. exact H2.
Qed.

Lemma email_check_single_at_witness :
  "bob.smith@mail.example.org" <> ""%string /\
  (String.length "bob.smith@mail.example.org" <= 255)%nat /\
  length (List.filter (fun c => Ascii.eqb c "@") (list_ascii_of_string "bob.smith@mail.example.org")) = 1%nat.
Proof.
  destruct (email_check_single_at "bob.smith@mail.example.org" "bob.smith@mail.example.org")
    as (_ & H); [vm_compute; reflexivity|exact H].
Defined.

Lemma email_normalize_idempotent_witness :
  email_normalize "bob.smith@mail.example.org" = Ok "bob.smith@mail.example.org".
Proof.
  exact (proj2 (email_normalize_idempotent "Bob.Smith@Mail.Example.org" "bob.smith@mail.example.org"
                  ltac:(vm_compute; reflexivity))).
Defined.

(** *** RBAC policy and route dependencies *)

Lemma existsb_code_has_permission (ps : list Permission) (code : string) :
  existsb (String.eqb code) (map perm_code ps) = has_permission ps code.
Proof.
  unfold has_permission. induction ps as [|p ps IH]; [done|]. cbn.
  by rewrite IH, String.eqb_sym.
Qed.

(** The three [RbacPolicy] checks agree: [has_any_permission] holds when
    some required code passes [has_permission], [has_all_permissions] when
    every one does.  On an empty list of codes the first is [False] and the
    second [True]. *)
Theorem rbac_policy_consistent (ps : list Permission) (codes : list string) :
  has_any_permission ps codes = existsb (has_permission ps) codes /\
  has_all_permissions ps codes = forallb (has_permission ps) codes /\
  has_any_permission ps [] = false /\ has_all_permissions ps [] = true.
Proof.
  unfold has_any_permission, has_all_permissions.
  assert (Hf : forallb (fun code => existsb (String.eqb code) (map perm_code ps)) codes
               = forallb (has_permission ps) codes)
    by (induction codes; cbn; [done|]; by rewrite existsb_code_has_permission, IHcodes).
  assert (Ha : existsb (fun code => existsb (String.eqb code) (map perm_code ps)) codes
               = existsb (has_permission ps) codes)
    by (apply existsb_ext_in; intros x; exact (existsb_code_has_permission ps x)).
  rewrite Ha, Hf. done.
Qed.

(** [verify_csrf_token] lets a request through exactly when the
    [X-CSRF-Token] header and the [csrf_token] cookie are both present,
    non-empty and equal; otherwise it raises 403 with the detail
    "Missing CSRF token" or "CSRF token mismatch". *)
Theorem verify_csrf_token_accepts (x_csrf_token csrf_token : option string) :
  (verify_csrf_token x_csrf_token csrf_token = inr tt <->
   exists t, x_csrf_token = Some t /\ csrf_token = Some t /\ t <> ""%string) /\
  (forall e, verify_csrf_token x_csrf_token csrf_token = inl e ->
   e = HTTPForbidden "Missing CSRF token" \/ e = HTTPForbidden "CSRF token mismatch").
Proof.
  unfold verify_csrf_token. split; [split|].
  - destruct x_csrf_token as [a|], csrf_token as [b|]; cbn; try discriminate.
    + destruct (String.eqb_spec a ""), (String.eqb_spec b ""); cbn; try discriminate.
      case_bool_decide; [|discriminate]. simplify_eq. eauto.
    + by rewrite orb_true_r.
  - intros (t & -> & -> & Ht). cbn. apply String.eqb_neq in Ht. rewrite Ht. cbn.
    by rewrite bool_decide_eq_true_2.
  - intros e. destruct (_ || _); [intros [= <-]; by left|].
    case_bool_decide; [discriminate|]. intros [= <-]; by right.
Qed.

(** The dependency built by [require_permission] refuses a principal with
    no roles with 403 "Permission denied: <code>", without touching the
    permission cache and without querying the RBAC store. *)
Theorem permission_checker_no_roles (get_permissions_for_roles : list string -> list Permission)
    (cache_ttl_seconds : Z) (permission_code : string) (principal : Principal)
    (c : Cache) (t_get t_set : Z) :
  p_roles principal = [] ->
  permission_checker get_permissions_for_roles cache_ttl_seconds permission_code principal c t_get t_set
  = (inl (HTTPForbidden ("Permission denied: " ++ permission_code)%string), c, []).
Proof. intros H. unfold permission_checker, check_permission. by rewrite H. Qed.

Lemma permission_checker_no_roles_witness :
  permission_checker (fun _ => [mkPermission 1 "products:read"]) 300 "products:read"
    (mkPrincipal 1 "alice@example.com" [] 0 true) ∅ 0 0
  = (inl (HTTPForbidden "Permission denied: products:read"), ∅, []).
Proof.
  exact (permission_checker_no_roles (fun _ => [mkPermission 1 "products:read"]) 300 "products:read"
           (mkPrincipal 1 "alice@example.com" [] 0 true) ∅ 0 0 eq_refl).
Defined.

(** Resolving the permissions of a role list reads and writes only the
    cache key of that role list: every other key of the cache keeps its
    entry. *)
Theorem resolve_permissions_other_keys (get_permissions_for_roles : list string -> list Permission)
    (cache_ttl_seconds : Z) (roles : list string) (c : Cache) (t_get t_set : Z) (k : string) :
  k <> cache_key roles ->
  (resolve_permissions get_permissions_for_roles cache_ttl_seconds roles c t_get t_set).1.2 !! k = c !! k.
Proof.
  intros Hk. destruct roles as [|r rs]; [done|].
  unfold resolve_permissions, cache_get, cache_set. unfold Cache in *.
  destruct (c !! cache_key (r :: rs)) as [[v e]|] eqn:E; cbn.
  - destruct (e <=? t_get); cbn; [|done].
    by rewrite lookup_insert_ne, lookup_delete_ne by congruence.
  - by rewrite lookup_insert_ne by congruence.
Qed.

Lemma resolve_permissions_other_keys_witness :
  (resolve_permissions (fun _ => [mkPermission 1 "products:read"]) 300 ["admin"]
     {[ "permissions:customer" := ([mkPermission 2 "orders:read"], 10) ]} 100 100).1.2
    !! "permissions:customer"
  = Some ([mkPermission 2 "orders:read"], 10).
Proof.
  exact (resolve_permissions_other_keys (fun _ => [mkPermission 1 "products:read"]) 300 ["admin"]
           {[ "permissions:customer" := ([mkPermission 2 "orders:read"], 10) ]} 100 100
           "permissions:customer" ltac:(vm_compute; discriminate)).
Defined.

(** *** What the use cases write *)

(** A login that fails, whatever the reason (bad email, unknown user,
    wrong password, inactive account, duplicate token row), leaves the
    database as it was. *)
Theorem login_failure_writes_nothing (hash_token : string -> string)
    (verify_password : string -> string -> bool) (get_user_roles : nat -> list string)
    (ttl : Z) (d : Db) (email password : string) (ip ua : option string) (now : Z)
    (new_id family_id : nat) (raw csrf : string) (e : Error) :
  snd (login hash_token verify_password get_user_roles ttl email password ip ua now
         new_id family_id raw csrf (fresh_session d)) = Err e ->
  committed (fst (login hash_token verify_password get_user_roles ttl email password ip ua now
                    new_id family_id raw csrf (fresh_session d))) = d.
Proof.
  unfold login. destruct (email_normalize email); unfold_m2; [|done].
  repeat (case_match; simplify_eq/=); done.
Qed.

(** A registration that fails (invalid password or email, email already
    taken, duplicate row) leaves the database as it was. *)
Theorem register_failure_writes_nothing (hash_password : string -> string) (d : Db)
    (email password : string) (new_id : nat) (now : Z) (e : Error) :
  snd (register hash_password email password new_id now (fresh_session d)) = Err e ->
  committed (fst (register hash_password email password new_id now (fresh_session d))) = d.
Proof.
  unfold register. repeat (case_match; simplify_eq/=); unfold_m2;
    repeat (case_match; simplify_eq/=); done.
Qed.

(** A password change that fails (invalid new password, unknown user,
    wrong current password) leaves the database as it was. *)
Theorem change_password_failure_writes_nothing (hash_password : string -> string)
    (verify_password : string -> string -> bool) (d : Db) (user_id : nat)
    (old_password new_password : string) (now : Z) (e : Error) :
  snd (change_password hash_password verify_password user_id old_password new_password now
         (fresh_session d)) = Err e ->
  committed (fst (change_password hash_password verify_password user_id old_password new_password now
                    (fresh_session d))) = d.
Proof.
  unfold change_password. repeat (case_match; simplify_eq/=); unfold_m2;
    repeat (case_match; simplify_eq/=); done.
Qed.

(** Among the failures of a refresh, only reuse detection writes to the
    database: a refresh failing with any other error leaves it as it was. *)
Theorem refresh_failure_writes_nothing_but_reuse (hash_token : string -> string)
    (get_user_roles : nat -> list string) (ttl : Z) (d : Db) (raw : string)
    (ip ua : option string) (now : Z) (new_id : nat) (new_raw csrf : string) (e : Error) :
  snd (refresh hash_token get_user_roles ttl raw ip ua now new_id new_raw csrf (fresh_session d)) = Err e ->
  e <> RefreshTokenReuseDetectedError ->
  committed (fst (refresh hash_token get_user_roles ttl raw ip ua now new_id new_raw csrf
                    (fresh_session d))) = d.
Proof.
  unfold refresh. unfold_m2. repeat (case_match; simplify_eq/=). all: try done. all: intros [= <-]; done.
Qed.

(** The per-request authentication never changes the database, whether
    it accepts or rejects the request. *)
Theorem get_current_principal_writes_nothing (verify_access_token : string -> JwtError + Claims)
    (parse_uuid : string -> option nat) (d : Db) (authorization : option string) :
  committed (fst (get_current_principal verify_access_token parse_uuid authorization (fresh_session d))) = d.
Proof.
  unfold get_current_principal. repeat (case_match; simplify_eq/=); unfold_m2;
    repeat (case_match; simplify_eq/=); done.
Qed.

Lemma login_failure_writes_nothing_witness :
  committed (fst (login hk pw_verify (fun _ => ["customer"]) 14 "alice@example.com" "wrong-pass1"
                    None None 50 20 200 "r9" "csrf" (fresh_session d_sample))) = d_sample.
Proof.
  apply (login_failure_writes_nothing hk pw_verify (fun _ => ["customer"]) 14 d_sample
           "alice@example.com" "wrong-pass1" None None 50 20 200 "r9" "csrf"
           (InvalidCredentialsError "Invalid email or password")).
  vm_compute. reflexivity.
Defined.

Lemma register_failure_writes_nothing_witness :
  committed (fst (register (fun p => "pw:" ++ p)%string "Alice@example.com" "passw0rd1" 2 5
                    (fresh_session d_sample))) = d_sample.
Proof.
  apply (register_failure_writes_nothing (fun p => "pw:" ++ p)%string d_sample "Alice@example.com"
           "passw0rd1" 2 5 (UserAlreadyExistsError "User with email alice@example.com already exists")).
  vm_compute. reflexivity.
Defined.

Lemma change_password_failure_writes_nothing_witness :
  committed (fst (change_password (fun p => "pw:" ++ p)%string pw_verify 1 "wrong-pass1" "newpassw0rd"
                    50 (fresh_session d_sample))) = d_sample.
Proof.
  apply (change_password_failure_writes_nothing (fun p => "pw:" ++ p)%string pw_verify d_sample 1
           "wrong-pass1" "newpassw0rd" 50 (InvalidCredentialsError "Current password is incorrect")).
  vm_compute. reflexivity.
Defined.

Lemma refresh_failure_writes_nothing_but_reuse_witness :
  committed (fst (refresh hk (fun _ => ["customer"]) 14 "r2" None None 1000 12 "r3" "csrf"
                    (fresh_session d_sample))) = d_sample.
Proof.
  apply (refresh_failure_writes_nothing_but_reuse hk (fun _ => ["customer"]) 14 d_sample "r2"
           None None 1000 12 "r3" "csrf" RefreshTokenExpiredError); [vm_compute; reflexivity|discriminate].
Defined.

(** *** Refresh-token repository *)

(** Revoking the live rows whose [key] is [k]. *)
Lemma revoke_where_rows (key : RefreshToken -> nat) (k : nat) (revoked_at : Z) (rows : list RefreshToken) :
  (forall r t, key (set_revoked_at r t) = key r) ->
  let rows' := map (fun r => if Nat.eqb (key r) k && negb (is_revoked r)
                             then set_revoked_at r revoked_at else r) rows in
  map rt_id rows' = map rt_id rows /\
  (forall r, In r rows' -> key r = k -> is_revoked r = true) /\
  (forall r, In r rows -> key r <> k \/ is_revoked r = true -> In r rows') /\
  (forall r, In r rows -> key r = k -> is_revoked r = false -> In (set_revoked_at r revoked_at) rows').
Proof.
  intros Hkey rows'. subst rows'. split; [|split; [|split]].
  - rewrite map_map. apply map_ext. intros r. by destruct (_ && _).
  - intros r Hr Hk. apply in_map_iff in Hr as [r0 [<- Hr0]].
    destruct (Nat.eqb (key r0) k && negb (is_revoked r0)) eqn:E; [done|].
    apply andb_false_iff in E as [E|E].
    + apply Nat.eqb_neq in E. congruence.
    + by apply negb_false_iff in E.
  - intros r Hr Hc. apply in_map_iff. exists r. split; [|done].
    destruct Hc as [Hc|Hc]; [apply Nat.eqb_neq in Hc; by rewrite Hc|by rewrite Hc, andb_false_r].
  - intros r Hr Hk Hv. apply in_map_iff. exists r. split; [|done].
    apply Nat.eqb_eq in Hk. by rewrite Hk, Hv.
Qed.

(** [revoke_all_for_user] keeps the same rows (by id) and the committed
    state; afterwards every token of the user is revoked, a token it
    revokes gets [revoked_at], and a token of another user or one already
    revoked (with its first revocation time) is left as it was. *)
Theorem revoke_all_for_user_effect (user_id : nat) (revoked_at : Z) (s : Session) :
  let '(s', o) := RefreshTokenRepo.revoke_all_for_user user_id revoked_at s in
  let rows := refresh_tokens (pending s) in
  let rows' := refresh_tokens (pending s') in
  o = Ok tt /\ committed s' = committed s /\ users (pending s') = users (pending s) /\
  map rt_id rows' = map rt_id rows /\
  (forall r, In r rows' -> rt_user_id r = user_id -> is_revoked r = true) /\
  (forall r, In r rows -> rt_user_id r <> user_id \/ is_revoked r = true -> In r rows') /\
  (forall r, In r rows -> rt_user_id r = user_id -> is_revoked r = false ->
             In (set_revoked_at r revoked_at) rows').
Proof.
  unfold_m. do 3 (split; [done|]).
  exact (revoke_where_rows rt_user_id user_id revoked_at _ (fun _ _ => eq_refl)).
Qed.

(** [revoke_family] keeps the same rows (by id) and the committed state;
    afterwards every token of the family is revoked, a token it revokes gets
    [revoked_at], and a token of another family or one already revoked
    (with its first revocation time) is left as it was. *)
Theorem revoke_family_effect (family_id : nat) (revoked_at : Z) (s : Session) :
  let '(s', o) := RefreshTokenRepo.revoke_family family_id revoked_at s in
  let rows := refresh_tokens (pending s) in
  let rows' := refresh_tokens (pending s') in
  o = Ok tt /\ committed s' = committed s /\ users (pending s') = users (pending s) /\
  map rt_id rows' = map rt_id rows /\
  (forall r, In r rows' -> rt_family_id r = family_id -> is_revoked r = true) /\
  (forall r, In r rows -> rt_family_id r <> family_id \/ is_revoked r = true -> In r rows') /\
  (forall r, In r rows -> rt_family_id r = family_id -> is_revoked r = false ->
             In (set_revoked_at r revoked_at) rows').
Proof.
  unfold_m. unfold RefreshTokenRepo.revoke_family_rows. do 3 (split; [done|]).
  exact (revoke_where_rows rt_family_id family_id revoked_at _ (fun _ _ => eq_refl)).
Qed.



Lemma find_user_existsb (uid : nat) (us : list User) (u : User) :
  find (fun x => Nat.eqb (u_id x) uid) us = Some u ->
  u_id u = uid /\ existsb (fun r => Nat.eqb (u_id r) (u_id u)) us = true.
Proof.
  intros Hu. pose proof (find_some _ _ Hu) as [Hin Hid]. apply Nat.eqb_eq in Hid.
  split; [done|]. apply existsb_exists. exists u. split; [done|]. apply Nat.eqb_refl.
Qed.

(** Logout-all of an unknown user fails with UserNotFound and writes
    nothing.  For a known user it succeeds, and the committed database
    holds no unrevoked token of that user while every token of another user
    or already revoked is kept as it was. *)
Theorem logout_all_outcome (d : Db) (user_id : nat) (now : Z) :
  let '(s, r) := logout_all user_id now (fresh_session d) in
  match find (fun x => Nat.eqb (u_id x) user_id) (users d) with
  | None => r = Err UserNotFoundError /\ committed s = d
  | Some _ =>
    r = Ok tt /\
    (forall t, In t (refresh_tokens (committed s)) -> rt_user_id t = user_id -> is_revoked t = true) /\
    (forall t, In t (refresh_tokens d) -> rt_user_id t <> user_id \/ is_revoked t = true ->
               In t (refresh_tokens (committed s)))
  end.
Proof.
  unfold logout_all. unfold_m2.
  destruct (find (fun x => Nat.eqb (u_id x) user_id) (users d)) as [u|] eqn:Hu; cbn; [|done].
  destruct (find_user_existsb _ _ _ Hu) as [<- E]. cbn. rewrite E. cbn.
  destruct (revoke_where_rows rt_user_id (u_id u) now (refresh_tokens d) (fun _ _ => eq_refl))
    as (_ & H1 & H2 & _).
  split; [done|]. split; [exact H1|exact H2].
Qed.

(** A password change with a valid new password, a known user and the
    right current password succeeds; the committed user row holds the new
    hash (with [token_version] bumped by [with_new_password]), every token
    of the user is revoked, and every token of another user or already
    revoked is kept as it was. *)
Theorem change_password_success (hash_password : string -> string)
    (verify_password : string -> string -> bool) (d : Db) (user_id : nat)
    (old_password new_password : string) (now : Z) (u : User) :
  password_validate new_password = Ok tt ->
  find (fun x => Nat.eqb (u_id x) user_id) (users d) = Some u ->
  verify_password old_password (u_password_hash u) = true ->
  let '(s, r) := change_password hash_password verify_password user_id old_password new_password now
                   (fresh_session d) in
  r = Ok tt /\
  find (fun x => Nat.eqb (u_id x) user_id) (users (committed s))
    = Some (with_new_password u (hash_password new_password) now) /\
  (forall t, In t (refresh_tokens (committed s)) -> rt_user_id t = user_id -> is_revoked t = true) /\
  (forall t, In t (refresh_tokens d) -> rt_user_id t <> user_id \/ is_revoked t = true ->
             In t (refresh_tokens (committed s))).
Proof.
  intros Hpw Hu Hv. destruct (find_user_existsb _ _ _ Hu) as [Hid E].
  unfold change_password. rewrite Hpw. unfold_m2. rewrite Hu, Hv. cbn. rewrite E. cbn.
  destruct (revoke_where_rows rt_user_id (u_id u) now (refresh_tokens d) (fun _ _ => eq_refl))
    as (_ & H1 & H2 & _).
  split; [done|]. split.
  - rewrite (find_update_rows _ _ _ u); [by destruct u|cbn; done|done].
  - rewrite <- Hid. split; [exact H1|exact H2].
Qed.

Lemma change_password_success_witness :
  let '(s, r) := change_password (fun p => "pw:" ++ p)%string pw_verify 1 "secret123" "newpassw0rd" 50
                   (fresh_session d_sample) in
  r = Ok tt /\
  find (fun x => Nat.eqb (u_id x) 1) (users (committed s))
    = Some (with_new_password u_alice "pw:newpassw0rd" 50) /\
  (forall t, In t (refresh_tokens (committed s)) -> rt_user_id t = 1%nat -> is_revoked t = true) /\
  (forall t, In t (refresh_tokens d_sample) -> rt_user_id t <> 1%nat \/ is_revoked t = true ->
             In t (refresh_tokens (committed s))).
Proof.
  apply (change_password_success (fun p => "pw:" ++ p)%string pw_verify d_sample 1 "secret123"
           "newpassw0rd" 50 u_alice); vm_compute; reflexivity.
Defined.

(** *** Sequences of calls *)

Lemma find_map_preserve {A} (p : A -> bool) (f : A -> A) (l : list A) (x : A) :
  find p l = Some x ->
  (forall y, In y l -> p y = false -> p (f y) = false) ->
  p (f x) = true ->
  find p (map f l) = Some (f x).
Proof.
  induction l as [|a l IH]; cbn; [discriminate|]. intros Hf Hy Hx.
  destruct (p a) eqn:Ea.
  - injection Hf as <-. by rewrite Hx.
  - rewrite (Hy a (or_introl eq_refl) Ea). apply IH; [done| |done].
    intros y Hin. apply Hy. by right.
Qed.

(** After a logout with a stored raw token, a refresh presenting the same
    raw token before its expiry fails with Revoked. *)
Theorem logout_then_refresh_revoked (hash_token : string -> string)
    (get_user_roles : nat -> list string) (ttl : Z) (d : Db) (raw : string) (t : RefreshToken)
    (now1 now2 : Z) (ip ua : option string) (new_id : nat) (new_raw csrf : string) :
  find (fun r => String.eqb (rt_token_hash r) (hash_token raw)) (refresh_tokens d) = Some t ->
  now2 < rt_expires_at t ->
  let d1 := committed (fst (logout hash_token raw now1 (fresh_session d))) in
  snd (refresh hash_token get_user_roles ttl raw ip ua now2 new_id new_raw csrf (fresh_session d1))
  = Err RefreshTokenRevokedError.
Proof.
  intros Hfind Hexp d1.
  assert (Hd1 : refresh_tokens d1 =
    map (fun r => if String.eqb (rt_token_hash r) (hash_token raw) then set_revoked_at r now1 else r)
      (refresh_tokens d)).
  { subst d1. unfold logout. unfold_m2. by rewrite Hfind. }
  assert (Hf1 : find (fun r => String.eqb (rt_token_hash r) (hash_token raw)) (refresh_tokens d1)
                = Some (set_revoked_at t now1)).
  { rewrite Hd1. pose proof (find_some _ _ Hfind) as [_ Ht].
    rewrite (find_map_preserve _ _ _ t Hfind); [by rewrite Ht| |by cbn; rewrite Ht].
    intros y _ Hy. by rewrite Hy. }
  assert (E1 : is_expired (set_revoked_at t now1) now2 = false)
    by (unfold is_expired; cbn; apply Z.leb_gt; lia).
  unfold refresh. unfold_m2. rewrite Hf1, E1. done.
Qed.

(** After logout-all of a token's owner, a refresh presenting that raw
    token before its expiry fails with Revoked. *)
Theorem logout_all_then_refresh_revoked (hash_token : string -> string)
    (get_user_roles : nat -> list string) (ttl : Z) (d : Db) (raw : string) (t : RefreshToken)
    (u : User) (now1 now2 : Z) (ip ua : option string) (new_id : nat) (new_raw csrf : string) :
  find (fun r => String.eqb (rt_token_hash r) (hash_token raw)) (refresh_tokens d) = Some t ->
  find (fun x => Nat.eqb (u_id x) (rt_user_id t)) (users d) = Some u ->
  now2 < rt_expires_at t ->
  let d1 := committed (fst (logout_all (rt_user_id t) now1 (fresh_session d))) in
  snd (refresh hash_token get_user_roles ttl raw ip ua now2 new_id new_raw csrf (fresh_session d1))
  = Err RefreshTokenRevokedError.
Proof.
  intros Hfind Hu Hexp d1.
  pose proof (find_some _ _ Hu) as [_ Hid]. apply Nat.eqb_eq in Hid.
  assert (E : existsb (fun r => Nat.eqb (u_id r) (u_id u)) (users d) = true).
  { apply existsb_exists. exists u. split; [by apply (find_some _ _ Hu)|]. apply Nat.eqb_refl. }
  set (f := fun r => if Nat.eqb (rt_user_id r) (rt_user_id t) && negb (is_revoked r)
                     then set_revoked_at r now1 else r).
  assert (Hd1 : refresh_tokens d1 = map f (refresh_tokens d)).
  { subst d1. unfold logout_all. unfold_m2. rewrite Hu. cbn. rewrite E. done. }
  pose proof (find_some _ _ Hfind) as [_ Ht].
  assert (Hhash : forall r, rt_token_hash (f r) = rt_token_hash r)
    by (intros r; subst f; cbn; by destruct (_ && _)).
  assert (Hf1 : find (fun r => String.eqb (rt_token_hash r) (hash_token raw)) (refresh_tokens d1)
                = Some (f t)).
  { rewrite Hd1. apply (find_map_preserve _ _ _ t Hfind).
    - intros y _ Hy. by rewrite Hhash.
    - by rewrite Hhash. }
  assert (E1 : is_expired (f t) now2 = false).
  { unfold is_expired. subst f. cbn. destruct (_ && _); cbn; apply Z.leb_gt; lia. }
  assert (E2 : is_revoked (f t) = true).
  { subst f. cbn. rewrite Nat.eqb_refl. cbn. by destruct (is_revoked t) eqn:Er; cbn; [rewrite Er|]. }
  unfold refresh. unfold_m2. rewrite Hf1, E1, E2. done.
Qed.


(** After a successful rotation of an active token (under the
    preconditions of the rotation, and when no other row shares the old
    row's id), presenting the old raw token again before its expiry fails
    with ReuseDetected. *)
Theorem refresh_then_replay_detects_reuse (hash_token : string -> string)
    (get_user_roles : nat -> list string) (ttl : Z) (d : Db) (raw : string)
    (ip ua : option string) (now now2 : Z) (new_id new_id2 : nat) (new_raw new_raw2 csrf csrf2 : string)
    (old : RefreshToken) (u : User) :
  find (fun t => String.eqb (rt_token_hash t) (hash_token raw)) (refresh_tokens d) = Some old ->
  now < rt_expires_at old ->
  now2 < rt_expires_at old ->
  rt_revoked_at old = None ->
  rt_replaced_by_token_id old = None ->
  find (fun x => Nat.eqb (u_id x) (rt_user_id old)) (users d) = Some u ->
  u_is_active u = true ->
  (forall r, In r (refresh_tokens d) -> rt_id r <> new_id /\ rt_token_hash r <> hash_token new_raw) ->
  (forall r, In r (refresh_tokens d) -> rt_id r = rt_id old -> r = old) ->
  let d1 := committed (fst (refresh hash_token get_user_roles ttl raw ip ua now new_id new_raw csrf
                              (fresh_session d))) in
  snd (refresh hash_token get_user_roles ttl raw ip ua now2 new_id2 new_raw2 csrf2 (fresh_session d1))
  = Err RefreshTokenReuseDetectedError.
Proof.
  intros Hfind Hexp Hexp2 Hrev Hrep Hu Hact Hfresh Huniq d1.
  assert (E1 : is_expired old now = false) by (unfold is_expired; apply Z.leb_gt; lia).
  assert (E2 : is_revoked old = false) by (unfold is_revoked; by rewrite Hrev).
  assert (E3 : is_replaced old = false) by (unfold is_replaced; by rewrite Hrep).
  pose proof (find_some _ _ Hfind) as [Hold Hh]. apply String.eqb_eq in Hh.
  pose proof (Hfresh old Hold) as [Hoid Hohash].
  set (new_row := mkRefreshToken new_id (u_id u) (hash_token new_raw) (rt_family_id old) now
                    (now + ttl * seconds_per_day) None None ip ua).
  assert (E4 : existsb (fun r => Nat.eqb (rt_id r) new_id || String.eqb (rt_token_hash r) (hash_token new_raw))
                 (refresh_tokens d) = false).
  { apply Is_true_false. intros Hx. apply Is_true_eq_true, existsb_exists in Hx as [r [Hr Hx]].
    destruct (Hfresh r Hr) as [Hi Hs]. apply orb_true_iff in Hx as [Hx|Hx].
    - by apply Nat.eqb_eq in Hx. - by apply String.eqb_eq in Hx. }
  assert (E5 : existsb (fun r => Nat.eqb (rt_id r) (rt_id old)) (refresh_tokens d ++ [new_row]) = true).
  { apply existsb_exists. exists old. split; [apply in_or_app; by left|]. apply Nat.eqb_refl. }
  set (g := fun x => if Nat.eqb (rt_id x) (rt_id old) then rt_update_model x (mark_as_replaced old new_id) else x).
  assert (Hd1 : refresh_tokens d1 = map g (refresh_tokens d ++ [new_row])).
  { subst d1. unfold refresh; unfold_m2.
    rewrite Hfind, E1, E2, E3; simpl. rewrite Hu, Hact; simpl.
    fold new_row. rewrite E4; simpl. rewrite E5; simpl. done. }
  assert (Hg : g old = mark_as_replaced old new_id)
    by (subst g; cbn; rewrite Nat.eqb_refl; apply rt_update_model_mark).
  assert (Hf1 : find (fun t => String.eqb (rt_token_hash t) (hash_token raw)) (refresh_tokens d1)
                = Some (g old)).
  { rewrite Hd1. apply find_map_preserve.
    - by apply find_app_some.
    - intros y Hy Hpy. subst g. cbn beta.
      destruct (Nat.eqb_spec (rt_id y) (rt_id old)) as [Hyid|]; [|done].
      apply in_app_or in Hy as [Hy|[<-|[]]].
      + rewrite (Huniq y Hy Hyid) in Hpy. rewrite Hh, String.eqb_refl in Hpy. discriminate.
      + cbn in Hyid. congruence.
    - rewrite Hg. cbn. rewrite Hh. apply String.eqb_refl. }
  apply (refresh_reuse_path hash_token get_user_roles ttl d1 raw ip ua now2 new_id2 new_raw2 csrf2 (g old) Hf1);
    rewrite Hg; cbn.
  - unfold is_expired. cbn. apply Z.leb_gt. lia.
  - unfold is_revoked. cbn. by rewrite Hrev.
  - done.
Qed.

(** A refresh succeeds only if the presented raw token is stored, can be
    used at [now] ([RefreshToken.can_be_used]) and belongs to a stored
    active user. *)
Theorem refresh_ok_requires_usable_token (hash_token : string -> string)
    (get_user_roles : nat -> list string) (ttl : Z) (d : Db) (raw : string)
    (ip ua : option string) (now : Z) (new_id : nat) (new_raw csrf : string) (resp : TokenResponse) :
  snd (refresh hash_token get_user_roles ttl raw ip ua now new_id new_raw csrf (fresh_session d)) = Ok resp ->
  exists t u,
    find (fun r => String.eqb (rt_token_hash r) (hash_token raw)) (refresh_tokens d) = Some t /\
    can_be_used t now = true /\
    find (fun x => Nat.eqb (u_id x) (rt_user_id t)) (users d) = Some u /\
    u_is_active u = true.
Proof.
  unfold refresh. unfold_m2. unfold can_be_used.
  repeat (case_match; simplify_eq/=); intros; simplify_eq/=.
  exists r, u. rewrite H1, H2, H3. apply negb_false_iff in H5. done.
Qed.

(** The per-request authentication returns a principal only for a
    ["Bearer "] header whose token verifies, whose [sub] parses to the id
    of a stored active user whose [token_version] equals the token's
    [ver] (0 when absent); the principal carries that user's id, email and
    version, the token's roles ([] when absent) and [is_active = True]. *)
Theorem get_current_principal_ok (verify_access_token : string -> JwtError + Claims)
    (parse_uuid : string -> option nat) (d : Db) (authorization : option string) (p : Principal) :
  snd (get_current_principal verify_access_token parse_uuid authorization (fresh_session d)) = Ok p ->
  exists header claims sub u,
    authorization = Some header /\ String.prefix "Bearer " header = true /\
    verify_access_token (str_replace header "Bearer " "") = inr claims /\
    cl_sub claims = Some sub /\ parse_uuid sub = Some (p_user_id p) /\
    find (fun x => Nat.eqb (u_id x) (p_user_id p)) (users d) = Some u /\
    u_is_active u = true /\ u_token_version u = default 0 (cl_ver claims) /\
    p = mkPrincipal (u_id u) (u_email u) (default [] (cl_roles claims)) (u_token_version u) true.
Proof.
  unfold get_current_principal. repeat (case_match; simplify_eq/=); unfold_m2;
    repeat (case_match; simplify_eq/=); intros; simplify_eq/=.
  match goal with
  | Hp : negb (String.prefix _ ?hd) = false, Hv : verify_access_token _ = inr ?cl,
    Hs : cl_sub _ = Some ?sb, Hq : parse_uuid _ = Some ?n,
    Hf : find _ (users d) = Some ?u, Ha : negb (u_is_active _) = false,
    Ht : negb (u_token_version _ =? _) = false |- _ =>
    pose proof (find_some _ _ Hf) as [_ Hid]; apply Nat.eqb_eq in Hid; subst n;
    apply negb_false_iff in Hp, Ha, Ht; apply Z.eqb_eq in Ht;
    exists hd, cl, sb, u; rewrite Ha; by repeat split
  end.
Qed.

(** A login succeeds only for the normalized email of a stored active
    user whose password verifies; it returns the access token at the
    user's current version with the given raw token, and the database it
    commits is the old one plus the new refresh-token row. *)
Theorem login_ok_requires_credentials (hash_token : string -> string)
    (verify_password : string -> string -> bool) (get_user_roles : nat -> list string)
    (ttl : Z) (d : Db) (email password : string) (ip ua : option string) (now : Z)
    (new_id family_id : nat) (raw csrf : string) (resp : TokenResponse) :
  snd (login hash_token verify_password get_user_roles ttl email password ip ua now
         new_id family_id raw csrf (fresh_session d)) = Ok resp ->
  exists em u,
    email_normalize email = Ok em /\
    find (fun x => String.eqb (u_email x) em) (users d) = Some u /\
    verify_password password (u_password_hash u) = true /\ u_is_active u = true /\
    resp = mkTokenResponse (issue_access_token (u_id u) (get_user_roles (u_id u)) (u_token_version u))
             raw csrf /\
    committed (fst (login hash_token verify_password get_user_roles ttl email password ip ua now
                      new_id family_id raw csrf (fresh_session d))) =
      mkDb (users d)
        (refresh_tokens d ++ [mkRefreshToken new_id (u_id u) (hash_token raw) family_id now
                                (now + ttl * seconds_per_day) None None ip ua]).
Proof.
  unfold login. destruct (email_normalize email) as [em|e] eqn:He; unfold_m2; [|discriminate].
  repeat (case_match; simplify_eq/=); intros; simplify_eq/=.
  match goal with
  | Hf : find _ (users d) = Some ?u, Hv : negb (verify_password _ _) = false,
    Ha : negb (u_is_active _) = false |- _ =>
    apply negb_false_iff in Hv, Ha; exists em, u; by repeat split
  end.
Qed.


Lemma logout_then_refresh_revoked_witness :
  let d1 := committed (fst (logout hk "r2" 10 (fresh_session d_sample))) in
  snd (refresh hk (fun _ => ["customer"]) 14 "r2" None None 20 12 "r3" "csrf" (fresh_session d1))
  = Err RefreshTokenRevokedError.
Proof.
  apply (logout_then_refresh_revoked hk (fun _ => ["customer"]) 14 d_sample "r2" rt_current 10 20
           None None 12 "r3" "csrf"); [vm_compute; reflexivity|vm_compute; reflexivity].
Defined.

Lemma logout_all_then_refresh_revoked_witness :
  let d1 := committed (fst (logout_all (rt_user_id rt_current) 10 (fresh_session d_sample))) in
  snd (refresh hk (fun _ => ["customer"]) 14 "r2" None None 20 12 "r3" "csrf" (fresh_session d1))
  = Err RefreshTokenRevokedError.
Proof.
  apply (logout_all_then_refresh_revoked hk (fun _ => ["customer"]) 14 d_sample "r2" rt_current u_alice
           10 20 None None 12 "r3" "csrf"); vm_compute; reflexivity.
Defined.

Lemma refresh_then_replay_detects_reuse_witness :
  let d1 := committed (fst (refresh hk (fun _ => ["customer"]) 14 "r2" None None 50 12 "r3" "csrf"
                              (fresh_session d_sample))) in
  snd (refresh hk (fun _ => ["customer"]) 14 "r2" None None 60 13 "r4" "csrf2" (fresh_session d1))
  = Err RefreshTokenReuseDetectedError.
Proof.
  apply (refresh_then_replay_detects_reuse hk (fun _ => ["customer"]) 14 d_sample "r2" None None 50 60
           12 13 "r3" "r4" "csrf" "csrf2" rt_current u_alice);
    try (vm_compute; reflexivity).
  - intros r Hr. simpl in Hr. repeat destruct Hr as [<-|Hr]; try contradiction;
      split; vm_compute; discriminate.
  - intros r Hr. simpl in Hr. repeat destruct Hr as [<-|Hr]; try contradiction;
      vm_compute; [discriminate|reflexivity].
Defined.

Lemma refresh_ok_requires_usable_token_witness :
  exists t u,
    find (fun r => String.eqb (rt_token_hash r) (hk "r2")) (refresh_tokens d_sample) = Some t /\
    can_be_used t 50 = true /\
    find (fun x => Nat.eqb (u_id x) (rt_user_id t)) (users d_sample) = Some u /\
    u_is_active u = true.
Proof.
  apply (refresh_ok_requires_usable_token hk (fun _ => ["customer"]) 14 d_sample "r2" None None 50 12
           "r3" "csrf" (mkTokenResponse (issue_access_token 1 ["customer"] 0) "r3" "csrf")).
  vm_compute. reflexivity.
Defined.

Lemma get_current_principal_ok_witness :
  exists header claims sub u,
    Some "Bearer tok"%string = Some header /\ String.prefix "Bearer " header = true /\
    verify_sample (str_replace header "Bearer " "") = inr claims /\
    cl_sub claims = Some sub /\
    parse_sample sub = Some (p_user_id (mkPrincipal 1 "alice@example.com" ["customer"] 0 true)) /\
    find (fun x => Nat.eqb (u_id x) 1) (users d_sample) = Some u /\
    u_is_active u = true /\ u_token_version u = default 0 (cl_ver claims) /\
    mkPrincipal 1 "alice@example.com" ["customer"] 0 true
    = mkPrincipal (u_id u) (u_email u) (default [] (cl_roles claims)) (u_token_version u) true.
Proof.
  apply (get_current_principal_ok verify_sample parse_sample d_sample (Some "Bearer tok"%string)
           (mkPrincipal 1 "alice@example.com" ["customer"] 0 true)).
  vm_compute. reflexivity.
Defined.

Lemma login_ok_requires_credentials_witness :
  exists em u,
    email_normalize "Alice@Example.com" = Ok em /\
    find (fun x => String.eqb (u_email x) em) (users d_sample) = Some u /\
    pw_verify "secret123" (u_password_hash u) = true /\ u_is_active u = true /\
    mkTokenResponse (issue_access_token 1 ["customer"] 0) "r9" "csrf"
    = mkTokenResponse (issue_access_token (u_id u) ["customer"] (u_token_version u)) "r9" "csrf" /\
    committed (fst (login hk pw_verify (fun _ => ["customer"]) 14 "Alice@Example.com" "secret123"
                      None None 50 20 200 "r9" "csrf" (fresh_session d_sample))) =
      mkDb (users d_sample)
        (refresh_tokens d_sample ++ [mkRefreshToken 20 (u_id u) (hk "r9") 200 50
                                       (50 + 14 * seconds_per_day) None None None None]).
Proof.
  apply (login_ok_requires_credentials hk pw_verify (fun _ => ["customer"]) 14 d_sample
           "Alice@Example.com" "secret123" None None 50 20 200 "r9" "csrf"
           (mkTokenResponse (issue_access_token 1 ["customer"] 0) "r9" "csrf")).
  vm_compute. reflexivity.
Defined.
